(** * docu.py: the line-oriented documentation extractor

    A shallow embedding of [src/python/docu.py] (the functions [help],
    [usage] and [main], and the regular expressions [main] dispatches on)
    and of the method [position] of [src/python/pargs.py], and the
    properties of the specification checked against them.

    Text is a list of characters.  A character is a code point below 256;
    the classes used by the program ([\s], [.], [[a-z]], ...) are written
    out on code points.  The regular expressions of the program are kept as
    data and run by a backtracking matcher that follows Python's [re]:
    greedy repetition, leftmost match, [re.match] anchored at the start,
    [re.sub] replacing the non-overlapping matches from left to right. *)

From Stdlib Require Import List Ascii String Bool Arith PeanoNat Lia.
Import ListNotations.

(** ** Text *)

Definition str := list ascii.

Definition chars (s : string) : str := list_ascii_of_string s.

(** The newline and the double quote, by code. *)
Definition nl : ascii := "010"%char.
Definition dq : ascii := "034"%char.

(** The triple double quote that opens and closes a Python docstring. *)
Definition q3 : str := [dq; dq; dq].

(** A line as the file iterator yields it: the text and its newline. *)
Definition ln (s : string) : str := chars s ++ [nl].

(** [occurs pat s]: [pat] is a substring of [s]. *)
Fixpoint prefixb (pat s : str) : bool :=
  match pat, s with
  | [], _ => true
  | p :: pat', a :: s' => Ascii.eqb p a && prefixb pat' s'
  | _ :: _, [] => false
  end.

Fixpoint occurs (pat s : str) : bool :=
  prefixb pat s ||
  match s with
  | [] => false
  | _ :: s' => occurs pat s'
  end.

(** Output text cut into lines at each newline ([str.split] on the newline
    character): a text that ends with a newline has an empty last piece. *)
Fixpoint split_lines (s : str) : list str :=
  match s with
  | [] => [[]]
  | a :: s' =>
      if Ascii.eqb a nl then [] :: split_lines s'
      else match split_lines s' with
           | [] => [[a]]
           | l :: ls => (a :: l) :: ls
           end
  end.

(** [subseq xs ys]: the lines [xs] occur in [ys], in this order. *)
Fixpoint subseq (xs ys : list str) : bool :=
  match xs, ys with
  | [], _ => true
  | _ :: _, [] => false
  | x :: xs', y :: ys' =>
      if list_eq_dec ascii_dec x y then subseq xs' ys' else subseq xs ys'
  end.

(** ** Regular expressions, as Python's [re] runs them *)

Module Re.

(** Members of a character class. *)
Inductive atom :=
| Chr (c : ascii)            (* a literal character *)
| Dot                        (* [.]  : anything but the newline *)
| Space                      (* [\s] : str.isspace, below code 256 *)
| Range (lo hi : ascii).     (* [lo-hi] *)

Inductive cset :=
| Any (l : list atom)        (* [...] or a single atom *)
| Non (l : list atom).       (* [^...] *)

(** A pattern is a sequence of items.  The program's patterns have no
    alternation and repeat single characters only, so a group is a pair of
    zero-width marks around the items it holds (there is one group at
    most, group 1). *)
Inductive item :=
| Bol                                        (* ^ *)
| Open                                       (* ( *)
| Close                                      (* ) *)
| Rep (c : cset) (lo : nat) (hi : option nat). (* c{lo,hi}, greedy *)

Definition is_space (a : ascii) : bool :=
  let n := nat_of_ascii a in
  ((9 <=? n) && (n <=? 13)) || ((28 <=? n) && (n <=? 32))
  || (n =? 133) || (n =? 160).

Definition atom_mem (t : atom) (a : ascii) : bool :=
  match t with
  | Chr c => Ascii.eqb a c
  | Dot => negb (Ascii.eqb a nl)
  | Space => is_space a
  | Range lo hi =>
      (nat_of_ascii lo <=? nat_of_ascii a) && (nat_of_ascii a <=? nat_of_ascii hi)
  end.

Definition cmem (c : cset) (a : ascii) : bool :=
  match c with
  | Any l => existsb (fun t => atom_mem t a) l
  | Non l => negb (existsb (fun t => atom_mem t a) l)
  end.

(** How many leading characters of [s] are in [c], at most [hi]. *)
Fixpoint span (c : cset) (hi : option nat) (s : str) : nat :=
  match s with
  | [] => 0
  | a :: s' =>
      if cmem c a then
        match hi with
        | None => S (span c None s')
        | Some 0 => 0
        | Some (S h) => S (span c (Some h) s')
        end
      else 0
  end.

(** Greedy choice with backtracking: the longest repetition first, then one
    character less, down to [lo]. *)
Fixpoint greedy {A : Type} (f : nat -> option A) (lo m : nat) : option A :=
  if m <? lo then None
  else match f m with
       | Some r => Some r
       | None => match m with
                 | 0 => None
                 | S m' => greedy f lo m'
                 end
       end.

(** [exec p start n op g adv s] runs [p] on the text [s] that remains after
    [n] characters of this attempt.  [start] says that the attempt began at
    the first character of the subject ([^] holds there only); [op] is the
    text that remained when group 1 opened and [g] the text of group 1;
    [adv] refuses an empty match.  The result is the length of the match
    and group 1. *)
Fixpoint exec (p : list item) (start : bool) (n : nat) (op g : str)
         (adv : bool) (s : str) : option (nat * str) :=
  match p with
  | [] => if adv && (n =? 0) then None else Some (n, g)
  | Bol :: p' => if start && (n =? 0) then exec p' start n op g adv s else None
  | Open :: p' => exec p' start n s g adv s
  | Close :: p' =>
      exec p' start n op (firstn (List.length op - List.length s) op) adv s
  | Rep c lo hi :: p' =>
      greedy (fun k => exec p' start (n + k) op g adv (skipn k s))
             lo (span c hi s)
  end.

(** [re.match(p, s)] used as a condition. *)
Definition matches (p : list item) (s : str) : bool :=
  match exec p true 0 [] [] false s with
  | Some _ => true
  | None => false
  end.

(** Replacement templates: literal text and [\1]. *)
Inductive tpl := Lit (s : str) | G1.

Definition expand (t : list tpl) (g : str) : str :=
  flat_map (fun x => match x with Lit s => s | G1 => g end) t.

(** [re.sub(p, t, s)].  [skip] counts the characters of the current match
    still to be dropped.  After an empty match the search is repeated at
    the same place for a match that advances; failing that, one character
    is copied. *)
Fixpoint sub_go (p : list item) (t : list tpl) (start : bool) (skip : nat)
         (s : str) : str :=
  match s with
  | [] =>
      match skip with
      | 0 => match exec p start 0 [] [] false [] with
             | Some (_, g) => expand t g
             | None => []
             end
      | S _ => []
      end
  | a :: s' =>
      match skip with
      | S k => sub_go p t false k s'
      | 0 =>
          match exec p start 0 [] [] false s with
          | Some (S k, g) => expand t g ++ sub_go p t false k s'
          | Some (0, g) =>
              expand t g ++
              match exec p start 0 [] [] true s with
              | Some (S k, g') => expand t g' ++ sub_go p t false k s'
              | _ => a :: sub_go p t false 0 s'
              end
          | None => a :: sub_go p t false 0 s'
          end
      end
  end.

Definition sub (p : list item) (t : list tpl) (s : str) : str :=
  sub_go p t true 0 s.

(** Pattern syntax. *)
Definition one (a : ascii) : item := Rep (Any [Chr a]) 1 (Some 1).
Definition lit (s : string) : list item := map one (chars s).
Definition star (c : cset) : item := Rep c 0 None.
Definition plus (c : cset) : item := Rep c 1 None.
Definition opt (c : cset) : item := Rep c 0 (Some 1).
Definition rep (c : cset) (lo hi : nat) : item := Rep c lo (Some hi).
Definition blank : cset := Any [Chr " "%char].
Definition dot : cset := Any [Dot].
Definition space : cset := Any [Space].
Definition quotes : list item := [one dq; one dq; one dq].

End Re.

Import Re.

(** ** The patterns of [main], in the order of the source

    Each definition carries the regular expression it transcribes, where
    QQQ stands for three double quotes. *)

Module Pat.

(** [^QQQ([^\s].+)] *)
Definition title : list item :=
  [Bol] ++ quotes ++ [Open; Rep (Non [Space]) 1 (Some 1); plus dot; Close].

(** [QQQ *] *)
Definition title_mark : list item := quotes ++ [star blank].

(** [.*20.+] *)
Definition date : list item := [star dot] ++ lit "20" ++ [plus dot].

(** [^QQQ] *)
Definition module_end : list item := [Bol] ++ quotes.

(** [^class.+] *)
Definition class : list item := [Bol] ++ lit "class" ++ [plus dot].

(** [[^:\s\n]]: what a class name is made of *)
Definition class_id : cset := Non [Chr ":"%char; Space; Chr nl].

(** [^class +([^:\s\n]+).*\n] *)
Definition class_name : list item :=
  [Bol] ++ lit "class"
  ++ [plus blank; Open; plus class_id; Close; star dot; one nl].

(** [ +QQQ.+QQQ] *)
Definition inline : list item := [plus blank] ++ quotes ++ [plus dot] ++ quotes.

(** [ +QQQ(.+)QQQ] *)
Definition inline_text : list item :=
  [plus blank] ++ quotes ++ [Open; plus dot; Close] ++ quotes.

(** [^     ?def]: four blanks, an optional fifth, [def] *)
Definition def : list item := [Bol] ++ lit "    " ++ [opt blank] ++ lit "def".

(** [^ +def +([^:\n]+).*\n] *)
Definition def_name : list item :=
  [Bol; plus blank] ++ lit "def"
  ++ [plus blank; Open; plus (Non [Chr ":"%char; Chr nl]); Close;
      star dot; one nl].

(** [ {7,9}QQQ] *)
Definition doc_open : list item := [rep blank 7 9] ++ quotes.

(** [ {7,9}QQQ(.+)QQQ] *)
Definition doc_inline : list item :=
  [rep blank 7 9] ++ quotes ++ [Open; plus dot; Close] ++ quotes.

(** [ +Arguments:] *)
Definition args_head : list item := [plus blank] ++ lit "Arguments:".

(** [[a-z]] and [[^\s]] *)
Definition lower : cset := Any [Range "a"%char "z"%char].
Definition word : cset := Non [Space].

(** [ {9,12}[a-z]+] *)
Definition arg : list item := [rep blank 9 12; plus lower].

(** [^\s+([^\s]+) +- .+\n] *)
Definition arg_name : list item :=
  [Bol; plus space; Open; plus word; Close; plus blank]
  ++ lit "- " ++ [plus dot; one nl].

(** [.+ - (.+)\n] *)
Definition arg_text : list item :=
  [plus dot] ++ lit " - " ++ [Open; plus dot; Close; one nl].

(** [\s{9,13}[a-zA-Z0-9]+\s+-\+.+] *)
Definition arg_loose : list item :=
  [rep space 9 13;
   plus (Any [Range "a"%char "z"%char; Range "A"%char "Z"%char;
              Range "0"%char "9"%char]);
   plus space] ++ lit "-+" ++ [plus dot].

(** [.+ ([\s]+) .+] *)
Definition loose_name : list item :=
  [plus dot] ++ lit " " ++ [Open; plus (Any [Space]); Close] ++ lit " "
  ++ [plus dot].

(** [.+ - (.+)] *)
Definition loose_text : list item :=
  [plus dot] ++ lit " - " ++ [Open; plus dot; Close].

(** [ +QQQ.*] *)
Definition doc_end : list item := [plus blank] ++ quotes ++ [star dot].

(** [ {7,9}] *)
Definition indent : list item := [rep blank 7 9].

(** [\s*#' ?] *)
Definition literate : list item := [star space] ++ lit "#'" ++ [opt blank].

(** [.*#' ?] *)
Definition literate_mark : list item := [star dot] ++ lit "#'" ++ [opt blank].

End Pat.

(** The literate-comment marker token. *)
Definition marker : str := chars "#'".

(** ** The state of the pass

    The local variables of [main] that the loop carries from line to line. *)

Record state := State {
  i : nat;          (* lines read so far *)
  module : bool;    (* inside the module docstring *)
  yaml : nat;       (* front-matter stage: 0, 1 title, 2 author, 3 date *)
  clss : bool;      (* a class heading has been seen *)
  func : bool;      (* a def heading has just been seen *)
  funcdoc : bool    (* inside a method docstring *)
}.

Definition init : state := State 0 false 0 false false false.

Definition tick (st : state) : state :=
  State (S (i st)) (module st) (yaml st) (clss st) (func st) (funcdoc st).
Definition set_module (b : bool) (st : state) : state :=
  State (i st) b (yaml st) (clss st) (func st) (funcdoc st).
Definition set_yaml (n : nat) (st : state) : state :=
  State (i st) (module st) n (clss st) (func st) (funcdoc st).
Definition set_clss (b : bool) (st : state) : state :=
  State (i st) (module st) (yaml st) b (func st) (funcdoc st).
Definition set_func (b : bool) (st : state) : state :=
  State (i st) (module st) (yaml st) (clss st) b (funcdoc st).
Definition set_funcdoc (b : bool) (st : state) : state :=
  State (i st) (module st) (yaml st) (clss st) (func st) b.

(** The branches of the [if]/[elif] chain in the loop body, top to bottom. *)
Inductive branch :=
| BTitle | BAuthor | BDate | BModuleEnd | BModuleLine
| BClass | BClassDoc | BDef | BDocOpen | BDocInline
| BArgsHead | BArg | BArgLoose | BDocEnd | BDocLine
| BLiterate | BNone.

(** Which branch the chain takes: the first condition that holds.  [st] is
    the state after [i = i + 1]. *)
Definition select (st : state) (line : str) : branch :=
  if (i st <? 6) && matches Pat.title line then BTitle
  else if (i st <? 5) && (yaml st =? 1) then BAuthor
  else if (i st <? 5) && (yaml st =? 2) && matches Pat.date line then BDate
  else if module st && matches Pat.module_end line then BModuleEnd
  else if module st then BModuleLine
  else if matches Pat.class line then BClass
  else if clss st && matches Pat.inline line then BClassDoc
  else if clss st && matches Pat.def line then BDef
  else if func st && matches Pat.doc_open line then BDocOpen
  else if func st && matches Pat.doc_inline line then BDocInline
  else if funcdoc st then
    if matches Pat.args_head line then BArgsHead
    else if matches Pat.arg line then BArg
    else if matches Pat.arg_loose line then BArgLoose
    else if funcdoc st && matches Pat.doc_end line then BDocEnd
    else if funcdoc st then BDocLine
    else BNone
  else if matches Pat.literate line then BLiterate
  else BNone.

(** What each branch does: the new state and the text it prints.
    [print(x)] writes [x] and a newline, [print(x, end=...)] writes [x]
    alone, [print(x, y, ...)] puts a blank between [x] and [y]. *)
Definition perform (b : branch) (st : state) (line : str) : state * str :=
  match b with
  | BTitle =>
      (set_module true (set_yaml 1 st),
       chars "---" ++ [nl] ++ chars "title: " ++ chars " "
       ++ sub Pat.title_mark [] line)
  | BAuthor =>
      (set_yaml (yaml st + 1) st, chars "author: " ++ line)
  | BDate =>
      (set_yaml (yaml st + 1) st,
       chars "date: " ++ line ++ chars "---" ++ [nl])
  | BModuleEnd => (set_module false st, [])
  | BModuleLine => (st, line)
  | BClass =>
      (set_clss true st,
       [nl] ++ chars "**class " ++ sub Pat.class_name [G1] line
       ++ chars "**" ++ [nl] ++ [nl])
  | BClassDoc => (st, sub Pat.inline_text [G1] line ++ [nl])
  | BDef =>
      (set_func true st,
       [nl] ++ chars "**def " ++ sub Pat.def_name [G1] line
       ++ chars "**" ++ [nl])
  | BDocOpen => (set_func false (set_funcdoc true st), [nl])
  | BDocInline =>
      (set_func false st,
       [nl] ++ sub Pat.inline_text [G1] line ++ [nl] ++ [nl])
  | BArgsHead => (st, chars "> _Arguments:_" ++ [nl; nl] ++ chars ">")
  | BArg =>
      (st,
       chars " - _" ++ sub Pat.arg_name [G1] line ++ chars "_: "
       ++ sub Pat.arg_text [G1] line ++ [nl])
  | BArgLoose =>
      (st,
       chars " - _" ++ sub Pat.loose_name [G1] line ++ chars "_: "
       ++ sub Pat.loose_text [G1] line ++ [nl])
  | BDocEnd => (set_func false (set_funcdoc false st), [])
  | BDocLine => (st, sub Pat.indent [] line)
  | BLiterate => (st, sub Pat.literate_mark [] line)
  | BNone => (st, [])
  end.

(** One turn of the loop. *)
Definition step (st : state) (line : str) : state * str :=
  perform (select (tick st) line) (tick st) line.

(** The loop: the final state and all the text printed. *)
Fixpoint run (st : state) (lines : list str) : state * str :=
  match lines with
  | [] => (st, [])
  | l :: ls =>
      let (st1, o1) := step st l in
      let (st2, o2) := run st1 ls in
      (st2, o1 ++ o2)
  end.

(** The branch taken at each line. *)
Fixpoint trace (st : state) (lines : list str) : list branch :=
  match lines with
  | [] => []
  | l :: ls => select (tick st) l :: trace (fst (step st l)) ls
  end.

(** The state [k] lines after [st], and after the first [k] lines of a
    file. *)
Definition st_at (st : state) (lines : list str) (k : nat) : state :=
  fst (run st (firstn k lines)).

Definition state_after (lines : list str) (k : nat) : state :=
  st_at init lines k.

(** What the pass prints for a file. *)
Definition extract (lines : list str) : str := snd (run init lines).

(** ** The command line: [usage], [help] and [main]

    A run of the script prints text and ends in one of three ways: it
    reaches the end, it calls [exit], or an exception escapes.  The file
    system is a function from paths to what is found there, [None] where
    [os.path.exists] is false.  The script catches no exception: what
    [open] or the reading of a line raises ends the process, after the
    text printed so far. *)

Module Script.

Inductive ending (A : Type) :=
| Done (a : A)              (* fell through: the script goes on *)
| Exited (code : nat)       (* exit() or sys.exit(code) *)
| Raised.                   (* an uncaught exception *)
Arguments Done {A} a.
Arguments Exited {A} code.
Arguments Raised {A}.

(** Printed text and how the computation ended. *)
Definition io (A : Type) : Type := str * ending A.

Definition ret {A : Type} (a : A) : io A := ([], Done a).

Definition bind {A B : Type} (m : io A) (k : A -> io B) : io B :=
  match m with
  | (o, Done a) => let (o', e) := k a in (o ++ o', e)
  | (o, Exited c) => (o, Exited c)
  | (o, Raised) => (o, Raised)
  end.

Notation "x <- m ;; k" := (bind m (fun x => k))
  (at level 61, m at next level, right associativity).
Notation "m ;; k" := (bind m (fun _ => k))
  (at level 61, right associativity).

Definition print (s : str) : io unit := (s ++ [nl], Done tt).
Definition write (s : str) : io unit := (s, Done tt).
Definition exit (code : nat) : io unit := ([], Exited code).
Definition pass : io unit := ret tt.

(** [argv[k]]: an index out of range raises. *)
Definition index (argv : list str) (k : nat) : io str :=
  match nth_error argv k with
  | Some a => ret a
  | None => ([], Raised)
  end.

Definition str_eqb (a b : str) : bool :=
  if list_eq_dec ascii_dec a b then true else false.

(** [x in argv] *)
Definition mem (x : str) (argv : list str) : bool := existsb (str_eqb x) argv.

(** The module docstring with [{0}] filled in. *)
Definition doc (a : str) : str :=
  chars "Modulename" ++ [nl; nl] ++ chars "Usage: " ++ a
  ++ chars " ?-h,-?,--help?" ++ [nl; nl] ++ chars "Arguments:" ++ [nl].

Definition help (argv : list str) : io unit :=
  a <- index argv 1 ;; print (doc a).

Definition usage (argv : list str) : io unit :=
  a <- index argv 0 ;; print (chars "Usage: " ++ a ++ chars " args").

(** The message of the missing file.  The format string is printed as it
    is: the source does not fill in the file name. *)
Definition missing : str := chars "Error: File '%s' does not exists!".

(** What [open] and the iteration over the file find at a path that
    exists: a text file that is read to its end; something [open] raises
    on (a directory, a file without read permission); or a file whose
    reading raises after some lines (bytes that do not decode). *)
Inductive file :=
| Text (lines : list str)
| Closed
| Broken (lines : list str).

Definition raise : io unit := ([], Raised).

(** [fs] is the file system: [None] where [os.path.exists] is false. *)
Definition main (fs : str -> option file) (argv : list str) : io unit :=
  (if List.length argv =? 1 then usage argv
   else if mem (chars "-h") argv || mem (chars "--help") argv
        then help argv ;; exit 0
        else pass) ;;
  (if List.length argv =? 1 then usage argv ;; exit 0 else pass) ;;
  filename <- index argv 1 ;;
  match fs filename with
  | None => print missing ;; exit 1
  | Some Closed => raise
  | Some (Text lines) => write (extract lines)
  | Some (Broken lines) => write (extract lines) ;; raise
  end.

(** The exit status of the process: 0 at the end of the script and for a
    bare [exit()], the given code for [sys.exit(code)], 1 for a traceback. *)
Definition status {A : Type} (r : io A) : nat :=
  match snd r with
  | Done _ => 0
  | Exited c => c
  | Raised => 1
  end.

Definition stdout {A : Type} (r : io A) : str := fst r.

End Script.

(** ** Sample files *)

(** Scenario A of the specification, as it is written there: the module
    docstring is set between triple single quotes. *)
Definition scenario_A : list str :=
  [ ln "'''Title"; ln "Author Name"; ln "2024-01-01 notes"; ln "'''";
    ln "class Foo:";
    chars "    " ++ q3 ++ chars "One line." ++ q3 ++ [nl];
    ln "    def bar(self):";
    chars "        " ++ q3 ++ [nl];
    ln "        Arguments:";
    ln "            x - the value";
    chars "        " ++ q3 ++ [nl] ].

(** The same file with the module docstring between triple double quotes,
    the marker the program looks for. *)
Definition scenario_A_quoted : list str :=
  [ q3 ++ ln "Title"; ln "Author Name"; ln "2024-01-01 notes"; q3 ++ [nl];
    ln "class Foo:";
    chars "    " ++ q3 ++ chars "One line." ++ q3 ++ [nl];
    ln "    def bar(self):";
    chars "        " ++ q3 ++ [nl];
    ln "        Arguments:";
    ln "            x - the value";
    chars "        " ++ q3 ++ [nl] ].

(** The lines the specification expects for scenario A, in order. *)
Definition scenario_A_expected : list str :=
  [ chars "title: Title"; chars "author: Author Name";
    chars "date: 2024-01-01 notes"; chars "**class Foo**";
    chars "One line."; chars "**def bar**"; chars "> _Arguments:_";
    chars " - _x_: the value" ].

(** A file system without files. *)
Definition no_files : str -> option Script.file := fun _ => None.

(** A file system where every path is a directory: it exists, and [open]
    raises on it. *)
Definition only_directories : str -> option Script.file :=
  fun _ => Some Script.Closed.

(** A module docstring that opens on line 4, inside a method docstring. *)
Definition late_title : list str :=
  [ ln "class A:"; ln "    def f():"; chars "        " ++ q3 ++ [nl];
    q3 ++ ln "Title" ].

(** A module docstring that opens on line 4, after three comment lines. *)
Definition title_on_line_4 : list str :=
  [ ln "#!/usr/bin/env python3"; ln "# -*- coding: utf-8 -*-";
    ln "# a module"; q3 ++ ln "Title" ].

(** A second module docstring that opens on line 4, after the front matter
    of the first. *)
Definition second_title : list str :=
  [ q3 ++ ln "Title"; ln "Author"; ln "2024-01-01"; q3 ++ ln "Again" ].


(** A method docstring with one argument, after a class heading. *)
Definition one_method : list str :=
  [ ln "class A:"; ln "    def f(x):"; chars "        " ++ q3 ++ [nl];
    ln "            x - the value" ].

(** A class heading with a base class. *)
Definition class_with_base : list str := [ln "class Foo(Base):"].

(** A literate comment that holds the marker twice. *)
Definition two_markers : str := ln "#' see #' here".

(** A method whose docstring is written on one line. *)
Definition inline_method : list str :=
  [ ln "class A:"; ln "    def f():";
    chars "        " ++ q3 ++ chars "text" ++ q3 ++ [nl] ].

(** ** Auxiliary predicates *)


(** A text without its leading blank, when it has one. *)
Definition drop_blank (s : str) : str :=
  match s with
  | a :: s' => if Ascii.eqb a " " then s' else s
  | [] => []
  end.

(** [stops c s]: a repetition of [c] cannot go into [s]. *)
Definition stops (c : cset) (s : str) : bool :=
  match s with
  | [] => true
  | a :: _ => negb (cmem c a)
  end.

(** What the flags of a state say about the number of lines read, and the
    exclusion of [module] and [funcdoc]. *)
Definition settled (st : state) : Prop :=
  (clss st = true -> 1 <= i st) /\
  (func st = true -> 2 <= i st) /\
  (funcdoc st = true -> 3 <= i st) /\
  module st && funcdoc st = false.

(** What remains of the pattern once the marker is found at [k]. *)
Definition mark_at (n : nat) (g s : str) (k : nat) : option (nat * str) :=
  if prefixb marker (skipn k s)
  then Some (n + k + 2 + span blank (Some 1) (skipn 2 (skipn k s)), g)
  else None.

(** ** Tactics *)

(** Opens the [if]/[elif] chain: one case per condition. *)
Ltac chain :=
  unfold select;
  repeat match goal with
         | |- context [if ?c then _ else _] => destruct c eqn:?
         end.

(** Turns the recorded conditions into facts about the state. *)
Ltac guards :=
  repeat match goal with
         | H : _ && _ = true |- _ => apply andb_true_iff in H; destruct H
         | H : (_ <? _) = true |- _ => apply Nat.ltb_lt in H
         | H : (_ <? _) = false |- _ => apply Nat.ltb_ge in H
         | H : (_ =? _) = true |- _ => apply Nat.eqb_eq in H
         | H : (_ =? _) = false |- _ => apply Nat.eqb_neq in H
         end.

(** ** Further predicates *)

(** A method heading or docstring is only found inside a class. *)
Definition nested (st : state) : Prop :=
  (func st = true -> clss st = true) /\
  (funcdoc st = true -> clss st = true).

(** No module docstring has been seen. *)
Definition plain (st : state) : Prop := yaml st = 0 /\ module st = false.

(** The branches of the front matter and of the module block. *)
Definition front (b : branch) : bool :=
  match b with
  | BTitle | BAuthor | BDate | BModuleEnd | BModuleLine => true
  | _ => false
  end.

(** The command line asks for the help text. *)
Definition wants_help (argv : list str) : bool :=
  Script.mem (chars "-h") argv || Script.mem (chars "--help") argv.

(** The usage line for a program name. *)
Definition usage_line (prog : str) : str :=
  chars "Usage: " ++ prog ++ chars " args" ++ [nl].

(** Items that take white space only, if they take anything. *)
Definition atom_ws (t : atom) : bool :=
  match t with
  | Chr c => is_space c
  | Space => true
  | Dot | Range _ _ => false
  end.

Definition item_ws (x : item) : bool :=
  match x with
  | Bol | Open | Close => true
  | Rep (Any l) _ _ => forallb atom_ws l
  | Rep (Non _) _ _ => false
  end.

(** The front-matter lines the title branch prints for a title [t]. *)
Definition title_text (t : str) : str :=
  chars "---" ++ [nl] ++ chars "title: " ++ chars " " ++ t.

(** [[^:\n]]: what the text of a def heading is made of. *)
Definition sig_chars : cset := Non [Chr ":"%char; Chr nl].

(** Seven blanks: the shortest run the indentation pattern removes. *)
Definition run7 : str := repeat " "%char 7.

(** A line of text of a method docstring, without its indentation: it
    begins with a character that is neither white space nor a double
    quote, is not the [Arguments:] header and holds no run of seven
    blanks. *)
Definition doc_text (t : str) : bool :=
  match t with
  | [] => false
  | c :: t' =>
      negb (is_space c) && negb (Ascii.eqb c dq)
      && negb (prefixb (chars "Arguments:") t) && negb (occurs run7 t')
  end.

(** The state [k] lines later, when the lines change no flag. *)
Definition advance (k : nat) (st : state) : state :=
  State (k + i st) (module st) (yaml st) (clss st) (func st) (funcdoc st).

(** The line that opens or closes a method docstring, and a line of its
    text, at the usual indentation of eight blanks. *)
Definition quotes_line : str := repeat " "%char 8 ++ q3 ++ [nl].
Definition text_line (t : str) : str := repeat " "%char 8 ++ t.

(** An entry of an argument list: the first letter of the name, the rest of
    the name, the description. *)
Definition entry : Type := ascii * str * str.

(** What the argument branch needs of an entry: a name that begins with a
    lower-case letter and holds no white space, and a description on one
    line, not empty, with no dash between blanks. *)
Definition entry_ok (e : entry) : bool :=
  let '(c, w, desc) := e in
  cmem Pat.lower c && forallb (cmem Pat.word) w
  && negb (match desc with [] => true | _ => false end)
  && forallb (cmem dot) desc
  && negb (occurs (chars " - ") (" "%char :: desc)).

(** The header of an argument list, an entry as it is written at twelve
    blanks, and the item printed for it. *)
Definition header_line : str := repeat " "%char 8 ++ chars "Arguments:" ++ [nl].

Definition entry_line (e : entry) : str :=
  let '(c, w, desc) := e in
  repeat " "%char 12 ++ (c :: w) ++ chars " - " ++ desc ++ [nl].

Definition entry_item (e : entry) : str :=
  let '(c, w, desc) := e in
  chars " - _" ++ (c :: w) ++ chars "_: " ++ desc ++ [nl].

Definition header_text : str := chars "> _Arguments:_" ++ [nl; nl] ++ chars ">".

(** No double quote in the text. *)
Definition quoteless (s : str) : bool :=
  forallb (fun a => negb (Ascii.eqb a dq)) s.

(** ** [Pargs.position] of [pargs.py]

    The method reads the argument vector of the parser; here the vector is
    an argument.  The loop over [range(1, max+1)] appends one value per
    index. *)

Module Pargs.

Definition position (argv : list str) (max : nat) (default : str)
  : list str :=
  fold_left
    (fun res i =>
       res ++ [if i <? List.length argv then nth i argv default
               else default])
    (seq 1 max) [].

End Pargs.

(** * Properties *)

(** ** The loop, line by line *)

Section Loop.

Lemma st_at_0 st lines : st_at st lines 0 = st.
Proof. reflexivity. Qed.

Lemma st_at_cons st l ls k :
  st_at st (l :: ls) (S k) = st_at (fst (step st l)) ls k.
Proof.
  unfold st_at; simpl.
  destruct (step st l) as [st1 o1]; simpl.
  now destruct (run st1 (firstn k ls)).
Qed.

Lemma st_at_S lines : forall st k l,
  nth_error lines k = Some l ->
  st_at st lines (S k) = fst (step (st_at st lines k) l).
Proof.
  induction lines as [|x xs IH]; intros st k l H.
  - now destruct k.
  - destruct k as [|k]; simpl in H.
    + injection H as ->. rewrite st_at_cons, !st_at_0. reflexivity.
    + rewrite !st_at_cons. now apply IH.
Qed.

Lemma st_at_end lines : forall st k,
  nth_error lines k = None -> st_at st lines (S k) = st_at st lines k.
Proof.
  intros st k H. unfold st_at.
  apply nth_error_None in H.
  now rewrite !firstn_all2 by lia.
Qed.

Lemma trace_nth lines : forall st k,
  nth_error (trace st lines) k =
  option_map (select (tick (st_at st lines k))) (nth_error lines k).
Proof.
  induction lines as [|x xs IH]; intros st k.
  - now destruct k.
  - destruct k as [|k]; simpl.
    + reflexivity.
    + rewrite IH, st_at_cons. reflexivity.
Qed.

Lemma trace_nth_inv st lines k b :
  nth_error (trace st lines) k = Some b ->
  exists l, nth_error lines k = Some l /\ b = select (tick (st_at st lines k)) l.
Proof.
  rewrite trace_nth.
  destruct (nth_error lines k) as [l|]; simpl; [|discriminate].
  intros [= <-]. now exists l.
Qed.

(** [i] counts the lines read. *)
Lemma step_i st l : i (fst (step st l)) = S (i st).
Proof.
  unfold step. now destruct (select (tick st) l).
Qed.

Lemma st_at_i lines : forall st k,
  k <= List.length lines -> i (st_at st lines k) = i st + k.
Proof.
  induction lines as [|x xs IH]; intros st k Hk.
  - simpl in Hk. assert (k = 0) as -> by lia. rewrite st_at_0. lia.
  - destruct k as [|k].
    + rewrite st_at_0. lia.
    + rewrite st_at_cons, IH by (simpl in Hk; lia).
      rewrite step_i. lia.
Qed.

End Loop.

(** ** The front-matter stage *)

Section Flags.

(** What a turn of the loop does to the front-matter stage. *)
Lemma step_yaml st l :
  let b := select (tick st) l in
  yaml (fst (step st l)) =
  match b with
  | BTitle => 1
  | BAuthor | BDate => S (yaml st)
  | _ => yaml st
  end.
Proof.
  unfold step. destruct (select (tick st) l); simpl; try reflexivity; lia.
Qed.

Lemma select_author st l : select st l = BAuthor -> i st < 5 /\ yaml st = 1.
Proof. chain; try discriminate; guards; auto. Qed.

Lemma select_date st l :
  select st l = BDate -> i st < 5 /\ yaml st = 2 /\ matches Pat.date l = true.
Proof. chain; try discriminate; guards; auto. Qed.

Lemma select_title st l :
  select st l = BTitle -> i st < 6 /\ matches Pat.title l = true.
Proof. chain; try discriminate; guards; auto. Qed.

End Flags.

Section Stage.

Variable lines : list str.

(** A stage of 1 or more was reached through the title branch. *)
Lemma stage_has_title : forall k,
  1 <= yaml (st_at init lines k) ->
  exists j, j < k /\ nth_error (trace init lines) j = Some BTitle.
Proof.
  induction k as [|k IH]; intros H.
  - rewrite st_at_0 in H. simpl in H. lia.
  - destruct (nth_error lines k) as [l|] eqn:E.
    + rewrite (st_at_S _ _ _ _ E), step_yaml in H.
      destruct (select (tick (st_at init lines k)) l) eqn:B.
      1: { exists k. split; [lia|]. rewrite trace_nth, E. simpl. now rewrite B. }
      1: apply select_author in B; simpl in B.
      2: apply select_date in B; simpl in B.
      all: destruct IH as (j & Hj & T); [lia|]; exists j; split; [lia|exact T].
    + rewrite (st_at_end _ _ _ E) in H.
      destruct (IH H) as (j & Hj & T). exists j. split; [lia|exact T].
Qed.

(** A stage of 2 or more was reached through the author branch. *)
Lemma stage_has_author : forall k,
  2 <= yaml (st_at init lines k) ->
  exists j, j < k /\ nth_error (trace init lines) j = Some BAuthor.
Proof.
  induction k as [|k IH]; intros H.
  - rewrite st_at_0 in H. simpl in H. lia.
  - destruct (nth_error lines k) as [l|] eqn:E.
    + rewrite (st_at_S _ _ _ _ E), step_yaml in H.
      destruct (select (tick (st_at init lines k)) l) eqn:B.
      1: lia.
      1: { exists k. split; [lia|]. rewrite trace_nth, E. simpl. now rewrite B. }
      1: apply select_date in B; simpl in B.
      all: destruct IH as (j & Hj & T); [lia|]; exists j; split; [lia|exact T].
    + rewrite (st_at_end _ _ _ E) in H.
      destruct (IH H) as (j & Hj & T). exists j. split; [lia|exact T].
Qed.

End Stage.

(** C7, as the code has it.  Front-matter emission goes through its stages
    in order: the author branch never runs before the title branch has run,
    the date branch never before the author branch; and a line at position
    6 or later (index 5 or more) takes none of the three front-matter
    branches and leaves the stage as it is, whatever its text.  The stage
    itself goes down in one way only: the title branch sets it to 1,
    whatever it was; every other branch leaves it or raises it by one. *)
Theorem front_matter_order (lines : list str) (k : nat) :
  (nth_error (trace init lines) k = Some BAuthor ->
   exists j, j < k /\ nth_error (trace init lines) j = Some BTitle) /\
  (nth_error (trace init lines) k = Some BDate ->
   exists j, j < k /\ nth_error (trace init lines) j = Some BAuthor) /\
  (5 <= k ->
   forall b, nth_error (trace init lines) k = Some b ->
     b <> BTitle /\ b <> BAuthor /\ b <> BDate /\
     yaml (state_after lines (S k)) = yaml (state_after lines k)) /\
  (nth_error (trace init lines) k = Some BTitle ->
   yaml (state_after lines (S k)) = 1) /\
  (forall b, nth_error (trace init lines) k = Some b -> b <> BTitle ->
     yaml (state_after lines k) <= yaml (state_after lines (S k))
       <= S (yaml (state_after lines k))).
Proof.
  split; [|split; [|split; [|split]]].
  - intros H. apply trace_nth_inv in H as (l & E & B).
    symmetry in B. apply select_author in B as [_ B]. simpl in B.
    apply stage_has_title. lia.
  - intros H. apply trace_nth_inv in H as (l & E & B).
    symmetry in B. apply select_date in B as (_ & B & _). simpl in B.
    apply stage_has_author. lia.
  - intros Hk b H. apply trace_nth_inv in H as (l & E & B).
    assert (Hi : i (tick (st_at init lines k)) = S k).
    { simpl. rewrite st_at_i; [reflexivity|].
      apply Nat.lt_le_incl, nth_error_Some. now rewrite E. }
    assert (N : b <> BTitle /\ b <> BAuthor /\ b <> BDate).
    { repeat split; intros ->; symmetry in B.
      - apply select_title in B. lia.
      - apply select_author in B. lia.
      - apply select_date in B. lia. }
    destruct N as (N1 & N2 & N3). repeat split; auto.
    unfold state_after.
    rewrite (st_at_S _ _ _ _ E), step_yaml, <- B.
    now destruct b.
  - intros H. apply trace_nth_inv in H as (l & E & B).
    unfold state_after.
    now rewrite (st_at_S _ _ _ _ E), step_yaml, <- B.
  - intros b H N. apply trace_nth_inv in H as (l & E & B).
    unfold state_after.
    rewrite (st_at_S _ _ _ _ E), step_yaml, <- B.
    destruct b; try lia. now elim N.
Qed.

(** C7 as stated fails: the stage is not monotonic.  A second title line
    on line 4, after title, author and date, takes the stage from 3 back
    to 1, and its title block is printed after the date line. *)
Lemma stage_reset_by_second_title :
  trace init second_title = [BTitle; BAuthor; BDate; BTitle] /\
  map (fun k => yaml (state_after second_title k)) [0; 1; 2; 3; 4]
    = [0; 1; 2; 3; 1] /\
  split_lines (extract second_title)
    = [ chars "---"; chars "title:  Title"; chars "author: Author";
        chars "date: 2024-01-01"; chars "---";
        chars "---"; chars "title:  Again"; [] ].
Proof. repeat split. Qed.
(** ** The module block and the method docstring *)

Section Exclusive.

Lemma settled_init : settled init.
Proof. repeat split; simpl; discriminate. Qed.

Lemma settled_step st l :
  settled st ->
  (3 <= i st < 5 -> funcdoc st = true -> matches Pat.title l = false) ->
  settled (fst (step st l)).
Proof.
  intros (Hc & Hf & Hd & Hx) Ht. unfold step, settled.
  destruct (funcdoc st) eqn:Ed, (module st) eqn:Em, (func st) eqn:Ef,
    (clss st) eqn:Ec; try discriminate;
  chain; guards; simpl in *;
    rewrite ?Ed, ?Em, ?Ef, ?Ec in *; simpl in *;
    repeat split; intros; try discriminate; try congruence; try lia.
  all: try (rewrite Ht in *; [discriminate|lia|reflexivity]).
Qed.

Lemma clss_step st l : clss st = true -> clss (fst (step st l)) = true.
Proof.
  intros H. unfold step. now destruct (select (tick st) l).
Qed.

End Exclusive.

(** C4, as the code has it.  When neither line 4 nor line 5 opens a module
    docstring while a method docstring is open, [module] and [funcdoc] are
    never true together, after any number of lines; and [clss], once true,
    stays true whatever the other two flags do. *)
Theorem module_funcdoc_exclusive (lines : list str)
  (H : forall k l, k = 3 \/ k = 4 -> nth_error lines k = Some l ->
                   funcdoc (state_after lines k) = true ->
                   matches Pat.title l = false) (k : nat) :
  module (state_after lines k) && funcdoc (state_after lines k) = false /\
  (clss (state_after lines k) = true ->
   clss (state_after lines (S k)) = true).
Proof.
  unfold state_after.
  assert (S : forall n, settled (st_at init lines n)).
  { induction n as [|n IH]; [apply settled_init|].
    destruct (nth_error lines n) as [l|] eqn:E.
    - rewrite (st_at_S _ _ _ _ E). apply settled_step; [exact IH|].
      assert (i (st_at init lines n) = n) as ->.
      { rewrite st_at_i; [reflexivity|].
        apply Nat.lt_le_incl, nth_error_Some. now rewrite E. }
      intros Hn. apply (H n); [lia|exact E].
    - now rewrite (st_at_end _ _ _ E). }
  split.
  - apply S.
  - destruct (nth_error lines k) as [l|] eqn:E.
    + rewrite (st_at_S _ _ _ _ E). apply clss_step.
    + now rewrite (st_at_end _ _ _ E).
Qed.

(** The theorem at a file that opens its module docstring on line 4, after
    three comment lines: no method docstring is open there, and after the
    line [module] is true and [funcdoc] is not. *)
Lemma module_funcdoc_exclusive_witness :
  (module (state_after title_on_line_4 4)
     && funcdoc (state_after title_on_line_4 4) = false /\
   (clss (state_after title_on_line_4 4) = true ->
    clss (state_after title_on_line_4 5) = true)) /\
  nth_error (trace init title_on_line_4) 3 = Some BTitle /\
  module (state_after title_on_line_4 4) = true.
Proof.
  split; [|split; reflexivity].
  apply module_funcdoc_exclusive.
  intros k l [-> | ->] E F; [discriminate F|discriminate E].
Defined.

(** C4 as stated fails: a module docstring that opens on line 4, after a
    method docstring opened on line 3, leaves both flags true. *)
Lemma module_and_funcdoc_together :
  module (state_after late_title 4) = true /\
  funcdoc (state_after late_title 4) = true.
Proof. split; reflexivity. Qed.
(** ** The closing fence of the front matter *)



(** ** The matcher *)

Section Greedy.

Variable A : Type.
Variable f : nat -> option A.

Lemma greedy_eq lo m :
  greedy f lo m =
  if m <? lo then None
  else match f m with
       | Some r => Some r
       | None => match m with 0 => None | S m' => greedy f lo m' end
       end.
Proof. now destruct m. Qed.

(** The longest repetition is taken when what follows accepts it. *)
Lemma greedy_top lo m r : lo <= m -> f m = Some r -> greedy f lo m = Some r.
Proof.
  intros L E. rewrite greedy_eq, E.
  now rewrite (proj2 (Nat.ltb_ge m lo) L).
Qed.

(** Lengths that fail are passed over. *)
Lemma greedy_back lo k0 : forall m,
  lo <= k0 <= m ->
  (forall k, k0 < k <= m -> f k = None) ->
  greedy f lo m = greedy f lo k0.
Proof.
  induction m as [|m IH]; intros L N.
  - now replace k0 with 0 by lia.
  - destruct (Nat.eq_dec k0 (S m)) as [->|D]; [reflexivity|].
    rewrite greedy_eq, (N (S m)) by lia.
    rewrite (proj2 (Nat.ltb_ge (S m) lo)) by lia.
    apply IH; [lia|]. intros k Hk. apply N. lia.
Qed.

Lemma greedy_some_inv lo : forall m r,
  greedy f lo m = Some r -> exists k, lo <= k <= m /\ f k = Some r.
Proof.
  induction m as [|m IH]; intros r; rewrite greedy_eq;
    destruct (_ <? lo) eqn:L; try discriminate;
    apply Nat.ltb_ge in L.
  - destruct (f 0) eqn:E; [|discriminate].
    intros [= <-]. exists 0. split; [lia|exact E].
  - destruct (f (S m)) eqn:E.
    + intros [= <-]. exists (S m). split; [lia|exact E].
    + intros H. destruct (IH _ H) as (k & Hk & Fk).
      exists k. split; [lia|exact Fk].
Qed.

Lemma greedy_none_inv lo : forall m,
  greedy f lo m = None -> forall k, lo <= k <= m -> f k = None.
Proof.
  induction m as [|m IH]; rewrite greedy_eq;
    destruct (_ <? lo) eqn:L.
  - apply Nat.ltb_lt in L. intros; lia.
  - destruct (f 0) eqn:E; [discriminate|].
    intros _ k Hk. now replace k with 0 by lia.
  - apply Nat.ltb_lt in L. intros; lia.
  - destruct (f (S m)) eqn:E; [discriminate|].
    intros H k Hk.
    destruct (Nat.eq_dec k (S m)) as [->|D]; [exact E|].
    apply IH; [exact H|lia].
Qed.

Lemma greedy_none lo m :
  (forall k, lo <= k <= m -> f k = None) -> greedy f lo m = None.
Proof.
  intros N. destruct (greedy f lo m) eqn:E; [|reflexivity].
  apply greedy_some_inv in E as (k & Hk & Fk).
  rewrite N in Fk by exact Hk. discriminate.
Qed.

End Greedy.

Section Span.

Variable c : cset.

Lemma span_le hi : forall s, span c hi s <= List.length s.
Proof.
  intros s; revert hi; induction s as [|a s IH]; intros hi; simpl; [lia|].
  destruct (cmem c a); [|lia].
  destruct hi as [[|h]|]; try lia.
  - specialize (IH (Some h)). lia.
  - specialize (IH None). lia.
Qed.

Lemma span_zero s : span c (Some 0) s = 0.
Proof. destruct s as [|a s]; simpl; [|destruct (cmem c a)]; reflexivity. Qed.

Lemma span_run l1 l2 :
  forallb (cmem c) l1 = true -> stops c l2 = true ->
  span c None (l1 ++ l2) = List.length l1.
Proof.
  intros F S. induction l1 as [|a l1 IH]; simpl in *.
  - destruct l2 as [|b l2]; [reflexivity|]. simpl in *.
    now destruct (cmem c b).
  - apply andb_true_iff in F as [Fa F]. rewrite Fa. f_equal. now apply IH.
Qed.

Lemma span_run_max l1 l2 : forall h,
  forallb (cmem c) l1 = true -> stops c l2 = true ->
  span c (Some h) (l1 ++ l2) = Nat.min h (List.length l1).
Proof.
  induction l1 as [|a l1 IH]; intros h F S; simpl in *.
  - rewrite Nat.min_0_r. destruct l2 as [|b l2]; [reflexivity|]. simpl in *.
    now destruct (cmem c b).
  - apply andb_true_iff in F as [Fa F]. rewrite Fa.
    destruct h as [|h]; [reflexivity|]. simpl. f_equal. now apply IH.
Qed.

End Span.

Arguments exec : simpl never.
Arguments greedy : simpl never.

Section Exec.

Variables (start adv : bool).

Lemma exec_rep c lo hi p n op g s :
  exec (Rep c lo hi :: p) start n op g adv s =
  greedy (fun k => exec p start (n + k) op g adv (skipn k s)) lo (span c hi s).
Proof. reflexivity. Qed.

Lemma exec_open p n op g s :
  exec (Open :: p) start n op g adv s = exec p start n s g adv s.
Proof. reflexivity. Qed.

Lemma exec_close p n op g s :
  exec (Close :: p) start n op g adv s =
  exec p start n op (firstn (List.length op - List.length s) op) adv s.
Proof. reflexivity. Qed.

(** A literal character. *)
Lemma exec_one a p n op g s :
  exec (one a :: p) start n op g adv s =
  match s with
  | b :: s' => if Ascii.eqb b a then exec p start (n + 1) op g adv s' else None
  | [] => None
  end.
Proof.
  unfold one. rewrite exec_rep. destruct s as [|b s]; simpl.
  - reflexivity.
  - rewrite orb_false_r, span_zero.
    destruct (Ascii.eqb b a); [|reflexivity].
    rewrite greedy_eq; simpl.
    now destruct (exec p start (n + 1) op g adv s).
Qed.

(** A literal text. *)
Lemma exec_lit l : forall p n op g s,
  exec (map one l ++ p) start n op g adv s =
  if prefixb l s
  then exec p start (n + List.length l) op g adv (skipn (List.length l) s)
  else None.
Proof.
  induction l as [|a l IH]; intros p n op g s; simpl.
  - now rewrite Nat.add_0_r.
  - rewrite exec_one. destruct s as [|b s]; [reflexivity|].
    rewrite (Ascii.eqb_sym a b). destruct (Ascii.eqb b a); simpl; [|reflexivity].
    rewrite IH. now replace (n + 1 + List.length l) with (n + S (List.length l)) by lia.
Qed.

(** A repetition that takes all of [l1] and is then accepted. *)
Lemma exec_rep_all c lo hi p n op g l1 l2 r :
  forallb (cmem c) l1 = true -> stops c l2 = true ->
  lo <= List.length l1 ->
  match hi with Some h => List.length l1 <= h | None => True end ->
  exec p start (n + List.length l1) op g adv l2 = Some r ->
  exec (Rep c lo hi :: p) start n op g adv (l1 ++ l2) = Some r.
Proof.
  intros F S L Hh E. rewrite exec_rep.
  assert (span c hi (l1 ++ l2) = List.length l1) as ->.
  { destruct hi as [h|].
    - rewrite span_run_max by assumption. lia.
    - now apply span_run. }
  apply greedy_top; [exact L|].
  now rewrite skipn_app, skipn_all, Nat.sub_diag.
Qed.

(** A repetition that has to give back characters down to [k0]. *)
Lemma exec_rep_back c lo hi p n op g s k0 r :
  lo <= k0 <= span c hi s ->
  (forall k, k0 < k <= span c hi s ->
     exec p start (n + k) op g adv (skipn k s) = None) ->
  exec p start (n + k0) op g adv (skipn k0 s) = Some r ->
  exec (Rep c lo hi :: p) start n op g adv s = Some r.
Proof.
  intros L N E. rewrite exec_rep.
  rewrite (greedy_back _ _ lo k0) by assumption.
  apply greedy_top; [lia|exact E].
Qed.

(** A repetition none of whose lengths is accepted. *)
Lemma exec_rep_none c lo hi p n op g s :
  (forall k, lo <= k <= span c hi s ->
     exec p start (n + k) op g adv (skipn k s) = None) ->
  exec (Rep c lo hi :: p) start n op g adv s = None.
Proof. intros N. rewrite exec_rep. now apply greedy_none. Qed.

End Exec.

(** ** Substitution *)

Section Sub.

Variables (p : list item) (t : list tpl).

(** The characters of a match are dropped. *)
Lemma sub_go_skip : forall l1 l2,
  sub_go p t false (List.length l1) (l1 ++ l2) = sub_go p t false 0 l2.
Proof.
  induction l1 as [|a l1 IH]; intros l2; [reflexivity|].
  simpl. apply IH.
Qed.

(** A match at the first character. *)
Lemma sub_go_hit b a l1 l2 g :
  exec p b 0 [] [] false (a :: l1 ++ l2) = Some (S (List.length l1), g) ->
  sub_go p t b 0 (a :: l1 ++ l2) = expand t g ++ sub_go p t false 0 l2.
Proof.
  intros E. simpl. rewrite E. now rewrite sub_go_skip.
Qed.

(** No match at the first character: it is copied. *)
Lemma sub_go_miss b a s :
  exec p b 0 [] [] false (a :: s) = None ->
  sub_go p t b 0 (a :: s) = a :: sub_go p t false 0 s.
Proof. intros E. simpl. now rewrite E. Qed.

(** The match is the whole text. *)
Lemma sub_whole a s g n :
  exec p true 0 [] [] false (a :: s) = Some (n, g) ->
  n = S (List.length s) ->
  exec p false 0 [] [] false [] = None ->
  sub p t (a :: s) = expand t g.
Proof.
  intros E -> N. unfold sub.
  assert (E' : exec p true 0 [] [] false (a :: s ++ []) =
               Some (S (List.length s), g)) by now rewrite app_nil_r.
  rewrite <- (app_nil_r s).
  rewrite (sub_go_hit _ _ _ _ _ E').
  simpl. rewrite N. apply app_nil_r.
Qed.

(** No match anywhere: the text is unchanged. *)
Lemma sub_go_id : forall s b,
  (forall k b', exec p b' 0 [] [] false (skipn k s) = None) ->
  sub_go p t b 0 s = s.
Proof.
  induction s as [|a s IH]; intros b N.
  - pose proof (N 0 b) as H. simpl in *. now rewrite H.
  - rewrite sub_go_miss by apply (N 0 b).
    f_equal. apply IH. intros k b'. apply (N (S k) b').
Qed.

End Sub.

Lemma expand_G1 g : expand [G1] g = g.
Proof. apply app_nil_r. Qed.

Lemma forallb_repeat (f : ascii -> bool) a n :
  f a = true -> forallb f (repeat a n) = true.
Proof. intros H. induction n; simpl; [reflexivity|]. now rewrite H. Qed.

Lemma exec_bol p op g adv s :
  exec (Bol :: p) true 0 op g adv s = exec p true 0 op g adv s.
Proof. reflexivity. Qed.

Lemma exec_end start n op g s : exec [] start n op g false s = Some (n, g).
Proof. reflexivity. Qed.

(** ** Class headings *)

Lemma split_lines_app l s :
  forallb (cmem dot) l = true ->
  split_lines (l ++ nl :: s) = l :: split_lines s.
Proof.
  induction l as [|a l IH]; intros F; simpl in *.
  - reflexivity.
  - rewrite orb_false_r in F. apply andb_true_iff in F as [Fa F].
    apply negb_true_iff in Fa. rewrite Fa, IH by exact F. reflexivity.
Qed.

Lemma forallb_impl (f g : ascii -> bool) l :
  (forall a, f a = true -> g a = true) ->
  forallb f l = true -> forallb g l = true.
Proof.
  intros H. induction l as [|a l IH]; simpl; [reflexivity|].
  intros F. apply andb_true_iff in F as [Fa F].
  now rewrite (H _ Fa), IH.
Qed.

Section ClassHeading.

Variables (sp : nat) (name rest : str).

Let line : str :=
  chars "class" ++ repeat " "%char (S sp) ++ name ++ rest ++ [nl].

Hypothesis name_some : name <> [].
Hypothesis name_ok : forallb (cmem Pat.class_id) name = true.
Hypothesis rest_stops : stops Pat.class_id rest = true.
Hypothesis rest_line : forallb (cmem dot) rest = true.

Lemma class_name_exec :
  exists n, exec Pat.class_name true 0 [] [] false line = Some (n, name)
            /\ n = List.length line.
Proof.
  eexists. split.
  - unfold line, Pat.class_name. change ([Bol] ++ ?x) with (Bol :: x).
    rewrite exec_bol. unfold lit. rewrite exec_lit. simpl.
    apply exec_rep_all with (l1 := " "%char :: repeat " "%char sp).
    + simpl. now apply forallb_repeat.
    + destruct name as [|a nm]; [now elim name_some|]. simpl in *.
      apply andb_true_iff in name_ok as [Ha _].
      destruct (Ascii.eqb a " ") eqn:E; [|reflexivity].
      apply Ascii.eqb_eq in E. subst a. discriminate.
    + simpl; lia.
    + exact I.
    + rewrite exec_open. apply exec_rep_all.
      * exact name_ok.
      * destruct rest; [reflexivity|exact rest_stops].
      * destruct name; [now elim name_some|simpl; lia].
      * exact I.
      * rewrite exec_close.
        replace (List.length (name ++ rest ++ [nl]) - List.length (rest ++ [nl]))
          with (List.length name) by (rewrite !length_app; lia).
        rewrite firstn_app, firstn_all, Nat.sub_diag. simpl firstn.
        rewrite app_nil_r.
        apply exec_rep_all; [exact rest_line|reflexivity|lia|exact I|].
        rewrite exec_one. simpl. apply exec_end.
  - unfold line. simpl. rewrite !length_app, repeat_length. simpl. lia.
Qed.

Lemma class_name_sub : sub Pat.class_name [G1] line = name.
Proof.
  destruct class_name_exec as (n & E & Hn).
  rewrite <- (expand_G1 name).
  unfold line in *. simpl app in *.
  eapply sub_whole; [exact E| |reflexivity].
  rewrite Hn. reflexivity.
Qed.

Lemma class_not_title : matches Pat.title line = false.
Proof.
  unfold matches, Pat.title.
  change ([Bol] ++ quotes ++ ?t) with (Bol :: map one q3 ++ t).
  now rewrite exec_bol, exec_lit.
Qed.

Lemma class_matches : matches Pat.class line = true.
Proof.
  unfold matches, Pat.class, lit.
  change ([Bol] ++ ?l ++ ?t) with (Bol :: l ++ t).
  rewrite exec_bol, exec_lit.
  change (prefixb (chars "class") line) with true. cbv iota.
  unfold plus. rewrite exec_rep.
  erewrite greedy_top; [reflexivity| |apply exec_end].
  unfold line. cbn. lia.
Qed.

End ClassHeading.

(** When a line that the class pattern matches, and the title pattern does
    not, reaches the class branch. *)
Lemma class_select st l :
  matches Pat.title l = false -> matches Pat.class l = true ->
  select (tick st) l = BClass <->
  module st = false /\
  ~ (i st < 4 /\ (yaml st = 1 \/ yaml st = 2 /\ matches Pat.date l = true)).
Proof.
  intros T C. unfold select. cbn [tick i yaml module clss func funcdoc].
  rewrite T, C, andb_false_r.
  destruct (S (i st) <? 5) eqn:W, (yaml st =? 1) eqn:Y1, (yaml st =? 2) eqn:Y2,
    (matches Pat.date l), (module st), (matches Pat.module_end l);
    guards; cbn [andb]; split;
    try discriminate; try (intros [M N]; try discriminate M);
    try (intros _; split; [reflexivity|]; intros (? & [?|[? ?]]));
    try lia; try congruence; try discriminate.
  all: try (elim N; split; [lia|]; (now left) || (right; now split)).
Qed.

(** C6, as the code has it.  Take a heading line made of [class], one or
    more blanks, a name of characters other than the colon and white
    space, a rest that is empty or begins with a colon or white space, and
    a newline.  The line is recognized (it reaches the class branch) when
    it is read outside the module block and is not taken as the author or
    the date line of the front matter, and then only.  For every
    recognized line the class branch prints one line [**class name**]
    between blank lines.  The name is cut at the first colon or white
    space: a trailing colon is dropped, a parameter list written next to
    the name is kept. *)
Theorem class_heading_line (st : state) (sp : nat) (name rest : str) :
  let line := chars "class" ++ repeat " "%char (S sp) ++ name ++ rest ++ [nl] in
  name <> [] ->
  forallb (cmem Pat.class_id) name = true ->
  stops Pat.class_id rest = true ->
  forallb (cmem dot) rest = true ->
  (select (tick st) line = BClass <->
   module st = false /\
   ~ (i st < 4 /\
      (yaml st = 1 \/ yaml st = 2 /\ matches Pat.date line = true))) /\
  (select (tick st) line = BClass ->
   snd (step st line) =
     [nl] ++ chars "**class " ++ name ++ chars "**" ++ [nl; nl] /\
   split_lines (snd (step st line)) =
     [[]; chars "**class " ++ name ++ chars "**"; []; []]).
Proof.
  intros line H1 H2 H3 H4.
  split; [apply class_select; [apply class_not_title|apply class_matches]|].
  intros B.
  assert (E : snd (step st line) =
    [nl] ++ chars "**class " ++ name ++ chars "**" ++ [nl; nl]).
  { unfold step. rewrite B. simpl perform. unfold snd.
    unfold line. now rewrite class_name_sub. }
  split; [exact E|]. rewrite E.
  replace ([nl] ++ chars "**class " ++ name ++ chars "**" ++ [nl; nl])
    with (nl :: (chars "**class " ++ name ++ chars "**") ++ nl :: [nl])
    by (simpl; now rewrite <- !app_assoc).
  change (split_lines (nl :: ?x)) with ([] :: split_lines x).
  rewrite split_lines_app; [reflexivity|].
  rewrite !forallb_app. simpl.
  rewrite andb_true_r.
  eapply forallb_impl; [|exact H2].
  intros a Ha. simpl in Ha. simpl.
  destruct (Ascii.eqb a nl); [|reflexivity].
  now rewrite !orb_true_r in Ha.
Qed.

(** The theorem at the heading [class Foo(Base):], first line of a file:
    it is recognized, and printed with its parameter list. *)
Lemma class_heading_line_witness :
  select (tick init) (ln "class Foo(Base):") = BClass /\
  snd (step init (ln "class Foo(Base):")) =
    [nl] ++ chars "**class " ++ chars "Foo(Base)" ++ chars "**" ++ [nl; nl] /\
  split_lines (snd (step init (ln "class Foo(Base):"))) =
    [[]; chars "**class " ++ chars "Foo(Base)" ++ chars "**"; []; []].
Proof.
  destruct (class_heading_line init 0 (chars "Foo(Base)") (chars ":"))
    as [R P]; try solve [reflexivity | discriminate].
  assert (B : select (tick init) (ln "class Foo(Base):") = BClass).
  { apply R. split; [reflexivity|]. cbn. intros (_ & [Y|[Y _]]); discriminate Y. }
  split; [exact B|]. apply P, B.
Defined.

(** C6 as stated fails: the base class list stays in the heading. *)
Lemma class_heading_keeps_base :
  trace init class_with_base = [BClass] /\
  split_lines (extract class_with_base) =
    [[]; chars "**class Foo(Base)**"; []; []] /\
  ~ In (chars "**class Foo**") (split_lines (extract class_with_base)).
Proof.
  split; [reflexivity|]. split; [reflexivity|].
  vm_compute. intros [H|[H|[H|[H|[]]]]]; discriminate.
Qed.

(** ** Literate comments *)

Lemma greedy_ext (A : Type) (f f' : nat -> option A) lo m :
  (forall k, f k = f' k) -> greedy f lo m = greedy f' lo m.
Proof.
  intros E.
  induction m as [|m IH];
    rewrite (greedy_eq _ f lo), (greedy_eq _ f' lo), E; [reflexivity|].
  now rewrite IH.
Qed.

Lemma occurs_skipn pat : forall k s,
  occurs pat s = false -> prefixb pat (skipn k s) = false.
Proof.
  induction k as [|k IH]; intros s H.
  - destruct s; simpl in *; now apply orb_false_iff in H.
  - destruct s as [|a s]; simpl in *.
    + now apply orb_false_iff in H.
    + apply IH. now apply orb_false_iff in H.
Qed.

Lemma span_blank_drop s : skipn (span blank (Some 1) s) s = drop_blank s.
Proof.
  destruct s as [|a s]; simpl; [reflexivity|].
  rewrite orb_false_r. destruct (Ascii.eqb a " "); [|reflexivity].
  now rewrite span_zero.
Qed.

Lemma span_ge c l1 l2 :
  forallb (cmem c) l1 = true -> List.length l1 <= span c None (l1 ++ l2).
Proof.
  induction l1 as [|a l1 IH]; simpl; intros F; [lia|].
  apply andb_true_iff in F as [Fa F]. rewrite Fa. specialize (IH F). lia.
Qed.

Section Marker.

Variable start : bool.

Lemma mark_exec n op g s :
  exec Pat.literate_mark start n op g false s =
  greedy (mark_at n g s) 0 (span dot None s).
Proof.
  unfold Pat.literate_mark. change ([star dot] ++ ?x) with (star dot :: x).
  unfold star. rewrite exec_rep. apply greedy_ext. intros k.
  unfold lit, mark_at. rewrite exec_lit.
  change (chars "#'") with marker.
  destruct (prefixb marker (skipn k s)); [|reflexivity].
  unfold opt. rewrite exec_rep.
  apply greedy_top; [lia|]. rewrite exec_end. reflexivity.
Qed.

Lemma mark_none n op g s :
  occurs marker s = false ->
  exec Pat.literate_mark start n op g false s = None.
Proof.
  intros H. rewrite mark_exec. apply greedy_none. intros k _.
  unfold mark_at. now rewrite occurs_skipn.
Qed.

Lemma mark_none_inv n op g s k :
  exec Pat.literate_mark start n op g false s = None ->
  k <= span dot None s -> prefixb marker (skipn k s) = false.
Proof.
  rewrite mark_exec. intros H Hk.
  apply greedy_none_inv with (k := k) in H; [|lia].
  unfold mark_at in H. now destruct (prefixb marker (skipn k s)).
Qed.

Lemma mark_some_inv n op g s m g' :
  exec Pat.literate_mark start n op g false s = Some (m, g') ->
  exists k, k <= span dot None s /\ prefixb marker (skipn k s) = true /\
            m = n + k + 2 + span blank (Some 1) (skipn 2 (skipn k s)).
Proof.
  rewrite mark_exec. intros H.
  apply greedy_some_inv in H as (k & Hk & E).
  unfold mark_at in E. exists k.
  destruct (prefixb marker (skipn k s)); [|discriminate].
  injection E as <- _. repeat split. lia.
Qed.

End Marker.

Lemma prefixb_marker s :
  prefixb marker s = true -> exists r, s = "#"%char :: "'"%char :: r.
Proof.
  destruct s as [|a [|b r]]; cbn -[Ascii.eqb]; try discriminate.
  - now rewrite andb_false_r.
  - intros H. apply andb_true_iff in H as [Ha H].
    apply andb_true_iff in H as [Hb _].
    apply Ascii.eqb_eq in Ha, Hb. subst. now exists r.
Qed.

(** The strip leaves a text without the marker as it is. *)
Lemma strip_clean s b :
  occurs marker s = false -> sub_go Pat.literate_mark [] b 0 s = s.
Proof.
  intros H. apply sub_go_id. intros k b'. apply mark_none.
  destruct (occurs marker (skipn k s)) eqn:E; [|reflexivity].
  exfalso. clear b b'. revert s H E.
  induction k as [|k IH]; intros s H E.
  - simpl in E. congruence.
  - destruct s as [|a s]; simpl in E; [congruence|].
    apply (IH s); [|exact E].
    simpl in H. now apply orb_false_iff in H.
Qed.

Section SubMore.

Variables (p : list item) (t : list tpl).

(** A match that is a proper beginning [m] of the text. *)
Lemma sub_go_hit_app b m l2 g :
  m <> [] ->
  exec p b 0 [] [] false (m ++ l2) = Some (List.length m, g) ->
  sub_go p t b 0 (m ++ l2) = expand t g ++ sub_go p t false 0 l2.
Proof.
  destruct m as [|a m]; [congruence|]. intros _ E.
  now apply sub_go_hit.
Qed.

(** A match of [n] characters, counted on the text. *)
Lemma sub_go_hit_len b s n g :
  0 < n <= List.length s ->
  exec p b 0 [] [] false s = Some (n, g) ->
  sub_go p t b 0 s = expand t g ++ sub_go p t false 0 (skipn n s).
Proof.
  intros L E.
  assert (Hn : List.length (firstn n s) = n) by (rewrite length_firstn; lia).
  rewrite <- (firstn_skipn n s) at 1.
  apply sub_go_hit_app.
  - intros Z. rewrite Z in Hn. simpl in Hn. lia.
  - now rewrite firstn_skipn, Hn.
Qed.

End SubMore.

(** The marker found last on the line: what comes before it goes, the
    marker goes, a blank after it goes. *)
Lemma strip_last pre post :
  forallb (cmem dot) pre = true ->
  occurs marker post = false ->
  sub Pat.literate_mark [] (pre ++ marker ++ post) = drop_blank post.
Proof.
  intros Hpre Hpost. unfold sub.
  set (sb := span blank (Some 1) post).
  assert (Hsb : sb <= List.length post) by apply span_le.
  replace (pre ++ marker ++ post)
    with ((pre ++ marker ++ firstn sb post) ++ skipn sb post)
    by (now rewrite <- !app_assoc, firstn_skipn).
  rewrite sub_go_hit_app with (g := []).
  - simpl. rewrite strip_clean; [apply span_blank_drop|].
    destruct (occurs marker (skipn sb post)) eqn:E; [|reflexivity].
    exfalso. unfold sb in E. rewrite span_blank_drop in E.
    destruct post as [|a post]; simpl in E; [discriminate|].
    simpl in Hpost. apply orb_false_iff in Hpost as [H1 H2].
    destruct (Ascii.eqb a " "); [congruence|].
    simpl in E. rewrite H1, H2 in E. discriminate.
  - destruct pre; discriminate.
  - rewrite <- !app_assoc, firstn_skipn.
    rewrite mark_exec.
    rewrite (greedy_back _ _ 0 (List.length pre)).
    + apply greedy_top; [lia|]. unfold mark_at.
      rewrite skipn_app, skipn_all, Nat.sub_diag. simpl skipn.
      change (prefixb marker (chars "#'" ++ post)) with true. cbv iota.
      rewrite !length_app, length_firstn.
      fold sb. simpl. do 2 f_equal. lia.
    + split; [lia|]. apply span_ge. exact Hpre.
    + intros k Hk. unfold mark_at.
      replace k with (S (k - List.length pre - 1) + List.length pre) by lia.
      rewrite <- skipn_skipn, skipn_app, skipn_all, Nat.sub_diag.
      change ([] ++ skipn 0 (marker ++ post))
        with ("#"%char :: "'"%char :: post).
      destruct (k - List.length pre - 1) as [|j] eqn:Ej.
      * reflexivity.
      * change (skipn (S (S j)) (_ :: _ :: post)) with (skipn j post).
        now rewrite occurs_skipn.
Qed.

(** What the strip returns holds no marker, for any text. *)
Lemma strip_no_marker : forall n s b,
  List.length s <= n ->
  occurs marker (sub_go Pat.literate_mark [] b 0 s) = false.
Proof.
  assert (Nil : forall b, sub_go Pat.literate_mark [] b 0 [] = []).
  { intros b. cbn [sub_go]. now rewrite mark_none. }
  induction n as [|n IH]; intros s b L.
  { destruct s; [|simpl in L; lia]. now rewrite Nil. }
  destruct s as [|a s]; [now rewrite Nil|]. simpl in L.
  destruct (exec Pat.literate_mark b 0 [] [] false (a :: s))
    as [[m g]|] eqn:E.
  - pose proof E as E'.
    apply mark_some_inv in E' as (k & _ & Hp & Hm).
    apply prefixb_marker in Hp as Hr. destruct Hr as (r & Hr).
    assert (Hl : k + 2 + List.length r = List.length (a :: s)).
    { assert (k <= List.length (a :: s)).
      { destruct (Nat.le_gt_cases k (List.length (a :: s))); [assumption|].
        rewrite skipn_all2 in Hr by lia. discriminate. }
      pose proof (f_equal (@List.length _) (firstn_skipn k (a :: s))) as Hlen.
      rewrite length_app, length_firstn, Hr in Hlen.
      simpl List.length in *. lia. }
    rewrite Hr in Hm. change (skipn 2 (_ :: _ :: r)) with r in Hm.
    pose proof (span_le blank (Some 1) r) as Hs.
    simpl List.length in Hl.
    rewrite (sub_go_hit_len _ _ _ _ m g) by (simpl List.length; (lia || exact E)).
    simpl expand. simpl app. apply IH.
    rewrite length_skipn. simpl List.length. lia.
  - rewrite sub_go_miss by exact E.
    change (occurs marker (a :: ?x)) with (prefixb marker (a :: x) || occurs marker x).
    rewrite IH by lia. rewrite orb_false_r.
    destruct (prefixb marker (a :: sub_go Pat.literate_mark [] false 0 s))
      eqn:P; [|reflexivity].
    exfalso. apply prefixb_marker in P as (r & [= -> R]).
    pose proof (mark_none_inv _ _ _ _ _ 0 E ltac:(lia)) as H0.
    destruct s as [|c s]; [rewrite Nil in R; discriminate|].
    destruct (exec Pat.literate_mark false 0 [] [] false (c :: s))
      as [[m g]|] eqn:E2.
    + apply mark_some_inv in E2 as (k & Hk & Hp & _).
      assert (Hk' : S k <= span dot None ("#"%char :: c :: s)).
      { change (span dot None ("#"%char :: c :: s))
          with (S (span dot None (c :: s))). lia. }
      pose proof (mark_none_inv _ _ _ _ _ (S k) E Hk') as H1.
      change (skipn (S k) (_ :: c :: s)) with (skipn k (c :: s)) in H1.
      congruence.
    + rewrite sub_go_miss in R by exact E2.
      injection R as -> _. discriminate H0.
Qed.

(** C8.  The text printed by the literate-comment branch holds no marker,
    so stripping it again gives the same text. *)
Theorem literate_strip_idempotent (st : state) (line : str) :
  select (tick st) line = BLiterate ->
  snd (step st line) = sub Pat.literate_mark [] line /\
  occurs marker (snd (step st line)) = false /\
  sub Pat.literate_mark [] (snd (step st line)) = snd (step st line).
Proof.
  intros B. unfold step. rewrite B. simpl perform. unfold snd.
  assert (H : occurs marker (sub Pat.literate_mark [] line) = false)
    by (apply (strip_no_marker (List.length line)); lia).
  repeat split; [exact H|]. now apply strip_clean.
Qed.

(** The theorem at a comment line that holds the marker twice. *)
Lemma literate_strip_idempotent_witness :
  snd (step init two_markers) = ln "here" /\
  occurs marker (snd (step init two_markers)) = false /\
  sub Pat.literate_mark [] (snd (step init two_markers)) =
    snd (step init two_markers).
Proof.
  destruct (literate_strip_idempotent init two_markers) as (_ & H2 & H3).
  - reflexivity.
  - split; [reflexivity|]. split; assumption.
Defined.

(** C10.  On a literate-comment line, everything up to and including the
    last marker is dropped, and one blank after it: the text printed is
    what follows the last marker, whatever stands before it on the line,
    earlier markers included. *)
Theorem literate_last_marker (st : state) (pre post : str) :
  forallb (cmem dot) pre = true ->
  occurs marker post = false ->
  select (tick st) (pre ++ marker ++ post) = BLiterate ->
  snd (step st (pre ++ marker ++ post)) = drop_blank post.
Proof.
  intros Hpre Hpost B. unfold step. rewrite B. simpl perform. unfold snd.
  now apply strip_last.
Qed.

(** The theorem at a comment line that holds the marker twice. *)
Lemma literate_last_marker_witness :
  snd (step init (chars "#' see " ++ marker ++ chars " here" ++ [nl])) =
  chars "here" ++ [nl].
Proof.
  apply (literate_last_marker init (chars "#' see ") (chars " here" ++ [nl]));
    reflexivity.
Defined.

(** ** One-line method docstrings *)

Lemma exec_bol_eq start p n op g adv s :
  exec (Bol :: p) start n op g adv s =
  if start && (n =? 0) then exec p start n op g adv s else None.
Proof. reflexivity. Qed.

(** When a pattern matches, so does any beginning of it. *)
Lemma exec_prefix start q : forall p n op g s r,
  exec (p ++ q) start n op g false s = Some r ->
  exists r', exec p start n op g false s = Some r'.
Proof.
  induction p as [|x p IH]; intros n op g s r H.
  - eexists. apply exec_end.
  - destruct x; simpl app in H.
    + rewrite exec_bol_eq in *.
      destruct (start && (n =? 0)); [|discriminate]. eapply IH, H.
    + rewrite exec_open in *. eapply IH, H.
    + rewrite exec_close in *. eapply IH, H.
    + rewrite exec_rep in *.
      apply greedy_some_inv in H as (k & Hk & E).
      apply IH in E as (r' & E).
      match goal with |- exists _, ?x = _ => destruct x eqn:G end.
      * eexists; reflexivity.
      * apply greedy_none_inv with (k := k) in G; [congruence|exact Hk].
Qed.

Lemma matches_prefix p q s : matches (p ++ q) s = true -> matches p s = true.
Proof.
  unfold matches.
  destruct (exec (p ++ q) true 0 [] [] false s) eqn:E; [|discriminate].
  apply exec_prefix in E as (r' & ->). reflexivity.
Qed.

(** C2.  The branch for a one-line method docstring is never taken: a line
    that matches its pattern matches the pattern of the branch above it,
    which opens a docstring block.  After a def heading the one-line
    docstring is printed by the class-docstring branch, and [func] stays
    true; an opening line with text and no closing quotes opens a
    docstring block. *)
Theorem inline_docstring_branch_dead :
  (forall st line, select st line <> BDocInline) /\
  (let st := state_after inline_method 2 in
   let line := chars "        " ++ q3 ++ chars "text" ++ q3 ++ [nl] in
   func st = true /\
   matches Pat.doc_inline line = true /\
   select (tick st) line = BClassDoc /\
   snd (step st line) = chars "text" ++ [nl; nl] /\
   func (fst (step st line)) = true /\
   funcdoc (fst (step st line)) = false /\
   select (tick st) (chars "        " ++ q3 ++ ln "text") = BDocOpen).
Proof.
  split; [|repeat split].
  intros st line. chain; try discriminate. guards.
  match goal with H : func st && _ = false |- _ => rename H into N end.
  match goal with H : func st = true |- _ => rewrite H in N end.
  match goal with H : matches Pat.doc_inline line = true |- _ =>
    apply (matches_prefix Pat.doc_open) in H end.
  simpl in N. congruence.
Qed.

(** ** Argument lines *)



Lemma skipn_repeat (a : ascii) n k rest :
  k <= n -> skipn k (repeat a n ++ rest) = repeat a (n - k) ++ rest.
Proof.
  revert k; induction n as [|n IH]; intros k L.
  - now replace k with 0 by lia.
  - destruct k as [|k]; [reflexivity|]. simpl. apply IH. lia.
Qed.

Lemma firstn_group (l1 l2 : str) :
  firstn (List.length (l1 ++ l2) - List.length l2) (l1 ++ l2) = l1.
Proof.
  replace (List.length (l1 ++ l2) - List.length l2) with (List.length l1)
    by (rewrite length_app; lia).
  now rewrite firstn_app, firstn_all, Nat.sub_diag, app_nil_r.
Qed.

Lemma prefixb_snoc c pat : forall s,
  forallb (fun p => negb (Ascii.eqb p c)) pat = true ->
  prefixb pat (s ++ [c]) = prefixb pat s.
Proof.
  induction pat as [|p pat IH]; intros s F; [reflexivity|].
  cbn [forallb] in F. apply andb_true_iff in F as [Fp F].
  apply negb_true_iff in Fp.
  destruct s as [|a s]; cbn [prefixb app].
  - now rewrite Fp.
  - now rewrite IH.
Qed.

Lemma occurs_snoc c pat : forall s,
  pat <> [] ->
  forallb (fun p => negb (Ascii.eqb p c)) pat = true ->
  occurs pat (s ++ [c]) = occurs pat s.
Proof.
  intros s N F. induction s as [|a s IH].
  - destruct pat as [|p pat]; [congruence|].
    cbn [forallb] in F. apply andb_true_iff in F as [Fp _].
    apply negb_true_iff in Fp. cbn [app occurs prefixb]. now rewrite Fp.
  - change ((a :: s) ++ [c]) with (a :: (s ++ [c])).
    cbn [occurs]. rewrite IH.
    change (a :: (s ++ [c])) with ((a :: s) ++ [c]).
    now rewrite prefixb_snoc.
Qed.

(** A lower-case letter is none of the characters the patterns look for
    after the indentation. *)
Lemma lower_not c x :
  cmem Pat.lower c = true -> cmem Pat.lower x = false -> Ascii.eqb c x = false.
Proof.
  intros Hc Hx. destruct (Ascii.eqb c x) eqn:E; [|reflexivity].
  apply Ascii.eqb_eq in E. congruence.
Qed.

Lemma lower_word c : cmem Pat.lower c = true -> cmem Pat.word c = true.
Proof.
  unfold Pat.lower, Pat.word, cmem, existsb, atom_mem, is_space.
  change (nat_of_ascii "a") with 97. change (nat_of_ascii "z") with 122.
  generalize (nat_of_ascii c). intros n H.
  rewrite orb_false_r in *. apply andb_true_iff in H as [H1 H2].
  apply Nat.leb_le in H1, H2.
  apply negb_true_iff.
  repeat (apply orb_false_iff; split);
    try (apply andb_false_iff; right; apply Nat.leb_gt; lia);
    apply Nat.eqb_neq; lia.
Qed.

Lemma word_dot c : cmem Pat.word c = true -> cmem dot c = true.
Proof.
  unfold Pat.word, dot, cmem, existsb, atom_mem. rewrite !orb_false_r.
  intros H. apply negb_true_iff in H. apply negb_true_iff.
  destruct (Ascii.eqb c nl) eqn:E; [|reflexivity].
  apply Ascii.eqb_eq in E. subst c. discriminate.
Qed.

Lemma word_blank c : cmem Pat.word c = true -> cmem blank c = false.
Proof.
  unfold Pat.word, blank, cmem, existsb, atom_mem. rewrite !orb_false_r.
  intros H. apply negb_true_iff in H.
  destruct (Ascii.eqb c " ") eqn:E; [|reflexivity].
  apply Ascii.eqb_eq in E. subst c. discriminate.
Qed.

Lemma word_space c : cmem Pat.word c = true -> cmem space c = false.
Proof.
  unfold Pat.word, space, cmem, existsb, atom_mem. rewrite !orb_false_r.
  now intros H%negb_true_iff.
Qed.

Section Indented.

(** A line that begins with [n] blanks and then a character [c] that is
    not a blank. *)
Variables (n : nat) (c : ascii) (tail : str).
Hypothesis c_ok : cmem blank c = false.

Let line : str := repeat " "%char n ++ c :: tail.

Lemma indent_span hi :
  span blank hi line = match hi with Some h => Nat.min h n | None => n end.
Proof.
  unfold line. destruct hi as [h|].
  - rewrite span_run_max, repeat_length; [reflexivity| |].
    + now apply forallb_repeat.
    + unfold stops. now rewrite c_ok.
  - rewrite span_run, repeat_length; [reflexivity| |].
    + now apply forallb_repeat.
    + unfold stops. now rewrite c_ok.
Qed.

(** After the indentation the pattern wants [x]; the line has a blank or
    [c] there. *)
Lemma indent_miss start adv lo hi x p m op g :
  Ascii.eqb " " x = false ->
  Ascii.eqb c x = false \/ (exists h, hi = Some h /\ h < n) ->
  exec (Rep blank lo hi :: one x :: p) start m op g adv line = None.
Proof.
  intros Hx Hc. apply exec_rep_none. intros k Hk.
  rewrite indent_span in Hk. rewrite exec_one.
  assert (Lk : k <= n) by (destruct hi; lia).
  unfold line. rewrite skipn_repeat by exact Lk.
  destruct (n - k) as [|j] eqn:Ej; cbn [repeat app].
  - destruct Hc as [Hc|(h & -> & Hh)]; [now rewrite Hc|lia].
  - now rewrite Hx.
Qed.

End Indented.

Section ArgLine.

Variables (n m : nat) (c : ascii) (w desc : str).

Let line : str :=
  repeat " "%char n ++ (c :: w) ++ repeat " "%char m ++ chars " - "
  ++ desc ++ [nl].

Hypothesis n_ok : 9 <= n <= 12.
Hypothesis c_ok : cmem Pat.lower c = true.
Hypothesis w_ok : forallb (cmem Pat.word) w = true.
Hypothesis desc_some : desc <> [].
Hypothesis desc_ok : forallb (cmem dot) desc = true.
Hypothesis desc_dash : occurs (chars " - ") (" "%char :: desc) = false.

Lemma c_blank : cmem blank c = false.
Proof. apply word_blank, lower_word, c_ok. Qed.

Lemma arg_not_title : matches Pat.title line = false.
Proof.
  unfold matches, Pat.title, line.
  destruct n as [|n']; [lia|]. cbn [repeat app quotes].
  now rewrite exec_bol, exec_one.
Qed.

Lemma arg_not_class : matches Pat.class line = false.
Proof.
  unfold matches, Pat.class, line, lit.
  destruct n as [|n']; [lia|]. cbn [repeat app map chars list_ascii_of_string].
  now rewrite exec_bol, exec_one.
Qed.

Lemma arg_not_inline : matches Pat.inline line = false.
Proof.
  unfold matches, Pat.inline, line.
  cbn [app quotes plus]. unfold plus.
  rewrite (indent_miss n c _ c_blank true false 1 None dq);
    [reflexivity|reflexivity|].
  left. now apply lower_not.
Qed.

Lemma arg_not_def : matches Pat.def line = false.
Proof.
  unfold matches, Pat.def, line, lit.
  destruct n as [|[|[|[|n4]]]]; try lia.
  cbn [repeat app map chars list_ascii_of_string].
  rewrite exec_bol, !exec_one. cbn [Ascii.eqb Bool.eqb]. cbv iota.
  unfold opt.
  rewrite (indent_miss n4 c _ c_blank true false 0 (Some 1) "d"%char);
    [reflexivity|reflexivity|].
  right. exists 1. split; [reflexivity|lia].
Qed.

Lemma arg_not_doc_open : matches Pat.doc_open line = false.
Proof.
  unfold matches, Pat.doc_open, line.
  cbn [app]. unfold rep, quotes.
  rewrite (indent_miss n c _ c_blank true false 7 (Some 9) dq);
    [reflexivity|reflexivity|].
  left. now apply lower_not.
Qed.

Lemma arg_not_doc_inline : matches Pat.doc_inline line = false.
Proof.
  destruct (matches Pat.doc_inline line) eqn:E; [|reflexivity].
  apply (matches_prefix Pat.doc_open) in E.
  now rewrite arg_not_doc_open in E.
Qed.

Lemma arg_not_head : matches Pat.args_head line = false.
Proof.
  unfold matches, Pat.args_head, line, lit.
  cbn [app map chars list_ascii_of_string]. unfold plus.
  rewrite (indent_miss n c _ c_blank true false 1 None "A"%char);
    [reflexivity|reflexivity|].
  left. now apply lower_not.
Qed.

Lemma arg_matches : matches Pat.arg line = true.
Proof.
  unfold matches, Pat.arg, line, rep.
  erewrite exec_rep_all; [reflexivity| | | | |].
  - now apply forallb_repeat.
  - unfold stops. cbn [app]. now rewrite c_blank.
  - rewrite repeat_length. lia.
  - rewrite repeat_length. lia.
  - unfold plus. rewrite exec_rep. apply greedy_top; [|apply exec_end].
    cbn [app span]. rewrite c_ok. lia.
Qed.

Lemma arg_name_sub : sub Pat.arg_name [G1] line = c :: w.
Proof.
  assert (E : exists k, exec Pat.arg_name true 0 [] [] false line
                        = Some (k, c :: w) /\ k = List.length line).
  { eexists. split.
    - unfold line, Pat.arg_name. cbn [app]. rewrite exec_bol.
      apply exec_rep_all with (l1 := repeat " "%char n).
      + now apply forallb_repeat.
      + unfold stops. now rewrite word_space by apply lower_word, c_ok.
      + rewrite repeat_length. lia.
      + exact I.
      + rewrite exec_open. apply exec_rep_all with (l1 := c :: w).
        * cbn [forallb]. now rewrite lower_word, w_ok by exact c_ok.
        * destruct m; reflexivity.
        * simpl; lia.
        * exact I.
        * rewrite exec_close.
          change (c :: w ++ ?x) with ((c :: w) ++ x).
          rewrite firstn_group.
          replace (repeat " "%char m ++ chars " - " ++ desc ++ [nl])
            with ((repeat " "%char m ++ [" "%char]) ++ chars "- " ++ desc ++ [nl])
            by (now rewrite <- app_assoc).
          apply exec_rep_all.
          -- rewrite forallb_app. now rewrite forallb_repeat.
          -- reflexivity.
          -- rewrite length_app. simpl. lia.
          -- exact I.
          -- unfold lit. rewrite exec_lit. cbn [prefixb chars list_ascii_of_string app].
             rewrite !Ascii.eqb_refl. cbn [andb List.length skipn].
             apply exec_rep_all; [exact desc_ok|reflexivity| |exact I|].
             ++ destruct desc; [now elim desc_some|simpl; lia].
             ++ rewrite exec_one. cbn. apply exec_end.
    - unfold line. cbn [chars list_ascii_of_string].
      rewrite ?length_app, ?repeat_length. cbn [List.length].
      rewrite ?length_app. cbn [List.length]. lia. }
  destruct E as (k & E & Hk).
  rewrite <- (expand_G1 (c :: w)).
  unfold line in *. destruct n as [|n']; [lia|]. cbn [repeat app] in *.
  eapply sub_whole; [exact E| |reflexivity].
  rewrite Hk. reflexivity.
Qed.

Lemma arg_text_sub : sub Pat.arg_text [G1] line = desc.
Proof.
  set (pre := repeat " "%char n ++ (c :: w) ++ repeat " "%char m).
  assert (L : line = pre ++ chars " - " ++ desc ++ [nl]).
  { unfold line, pre. now rewrite <- !app_assoc. }
  assert (Hpre : forallb (cmem dot) pre = true).
  { unfold pre. rewrite !forallb_app, !forallb_repeat by reflexivity.
    cbn [forallb andb].
    rewrite word_dot by apply lower_word, c_ok.
    rewrite (forallb_impl _ _ _ word_dot w_ok). reflexivity. }
  assert (E : exists k, exec Pat.arg_text true 0 [] [] false line
                        = Some (k, desc) /\ k = List.length line).
  { eexists. split.
    - rewrite L. unfold Pat.arg_text. cbn [app]. unfold plus at 1.
      apply exec_rep_back with (k0 := List.length pre).
      + split; [|now apply span_ge].
        unfold pre. rewrite length_app, repeat_length. lia.
      + intros k Hk. unfold lit. rewrite exec_lit.
        replace k with (S (k - List.length pre - 1) + List.length pre) by lia.
        rewrite <- skipn_skipn, skipn_app, skipn_all, Nat.sub_diag.
        cbn [app skipn chars list_ascii_of_string].
        destruct (k - List.length pre - 1) as [|j]; [reflexivity|].
        change (skipn (S j) (_ :: ?x :: desc ++ [nl]))
          with (skipn j ((x :: desc) ++ [nl])).
        rewrite occurs_skipn; [reflexivity|].
        rewrite occurs_snoc; [exact desc_dash|discriminate|reflexivity].
      + rewrite skipn_app, skipn_all, Nat.sub_diag. cbn [app skipn].
        unfold lit. rewrite exec_lit.
        cbn [prefixb chars list_ascii_of_string app].
        rewrite !Ascii.eqb_refl. cbn [andb List.length skipn].
        rewrite exec_open.
        apply exec_rep_all; [exact desc_ok|reflexivity| |exact I|].
        * destruct desc; [now elim desc_some|simpl; lia].
        * rewrite exec_close, firstn_group, exec_one. cbn. apply exec_end.
    - rewrite L. cbn [chars list_ascii_of_string].
      rewrite ?length_app. cbn [List.length].
      rewrite ?length_app. cbn [List.length]. lia. }
  destruct E as (k & E & Hk).
  rewrite <- (expand_G1 desc).
  unfold line in *. destruct n as [|n']; [lia|]. cbn [repeat app] in *.
  eapply sub_whole; [exact E| |reflexivity].
  rewrite Hk. reflexivity.
Qed.

End ArgLine.




(** ** Scenario A *)

(** C1, as the code has it.  With the module docstring between triple
    double quotes the output is the YAML block ([title:] followed by two
    blanks), then the class heading, its one-line description, the def
    heading with its parameter list, the arguments header and the argument
    behind the [>] of the header, with blank lines between.  With triple
    single quotes, as the scenario is written, there is no YAML block and
    the output begins at the class heading. *)
Theorem scenario_A_output :
  split_lines (extract scenario_A_quoted) =
    [ chars "---"; chars "title:  Title"; chars "author: Author Name";
      chars "date: 2024-01-01 notes"; chars "---"; [];
      chars "**class Foo**"; []; chars "One line."; []; [];
      chars "**def bar(self)**"; []; chars "> _Arguments:_"; [];
      chars "> - _x_: the value"; [] ] /\
  split_lines (extract scenario_A) =
    [ []; chars "**class Foo**"; []; chars "One line."; []; [];
      chars "**def bar(self)**"; []; chars "> _Arguments:_"; [];
      chars "> - _x_: the value"; [] ].
Proof. split; reflexivity. Qed.

(** C1 as stated fails: for the scenario as written nothing of the module
    docstring is printed, and the lines expected are not in the output. *)
Lemma scenario_A_not_as_expected :
  trace init scenario_A =
    [ BNone; BNone; BNone; BNone; BClass; BClassDoc; BDef; BDocOpen;
      BArgsHead; BArg; BDocEnd ] /\
  existsb (Script.str_eqb (chars "---")) (split_lines (extract scenario_A))
    = false /\
  subseq scenario_A_expected (split_lines (extract scenario_A)) = false /\
  subseq scenario_A_expected (split_lines (extract scenario_A_quoted)) = false.
Proof. repeat split. Qed.

(** ** The command line *)

Section CommandLine.

Variable fs : str -> option Script.file.
Variables (prog path : str) (rest : list str).

Let argv : list str := prog :: path :: rest.

Hypothesis no_h : Script.mem (chars "-h") argv = false.
Hypothesis no_help : Script.mem (chars "--help") argv = false.

Lemma main_reads_path :
  Script.main fs argv =
  match fs path with
  | None => (Script.missing ++ [nl], Script.Exited 1)
  | Some (Script.Text lines) => (extract lines, Script.Done tt)
  | Some Script.Closed => ([], Script.Raised)
  | Some (Script.Broken lines) => (extract lines, Script.Raised)
  end.
Proof.
  unfold Script.main. rewrite no_h, no_help.
  unfold argv. cbn [List.length Nat.eqb orb].
  unfold Script.pass, Script.index. cbn [nth_error].
  unfold Script.bind, Script.ret. cbn [app].
  destruct (fs path) as [[lines| |lines]|]; try reflexivity.
  unfold Script.write, Script.raise. now rewrite app_nil_r.
Qed.

End CommandLine.

(** C9, as the code has it.  For a command line with a path and without
    [-h] or [--help]: when the path does not exist the process prints the
    one line of the error message and nothing else, and exits with status
    1; when the path is a text file read to its end the process prints the
    extracted text and ends with status 0, whatever the lines of the file.
    A path that does not exist is not the only way to status 1: a path
    that exists but cannot be opened prints nothing and ends with status 1,
    and a file whose reading fails ends with status 1 after the text
    extracted from the lines read so far. *)
Theorem missing_input_is_fatal (fs : str -> option Script.file)
    (prog path : str) (rest : list str) :
  Script.mem (chars "-h") (prog :: path :: rest) = false ->
  Script.mem (chars "--help") (prog :: path :: rest) = false ->
  let r := Script.main fs (prog :: path :: rest) in
  match fs path with
  | None =>
      Script.stdout r = Script.missing ++ [nl] /\ Script.status r = 1
  | Some (Script.Text lines) =>
      Script.stdout r = extract lines /\ Script.status r = 0
  | Some Script.Closed =>
      Script.stdout r = [] /\ Script.status r = 1
  | Some (Script.Broken lines) =>
      Script.stdout r = extract lines /\ Script.status r = 1
  end.
Proof.
  intros H1 H2 r. subst r. rewrite main_reads_path by assumption.
  destruct (fs path) as [[lines| |lines]|]; split; reflexivity.
Qed.

(** The theorem at [docu.py nofile.py], where no file exists. *)
Lemma missing_input_is_fatal_witness :
  Script.stdout (Script.main no_files [chars "docu.py"; chars "nofile.py"])
    = Script.missing ++ [nl] /\
  Script.status (Script.main no_files [chars "docu.py"; chars "nofile.py"]) = 1.
Proof.
  apply (missing_input_is_fatal no_files (chars "docu.py") (chars "nofile.py") []);
    reflexivity.
Defined.

(** C9 as stated fails on both sides.  With a help flag after the path the
    process prints the help text and exits with status 0, though the path
    does not exist; and a path that exists but is a directory ends the
    process with status 1 and no output, so that a path that does not exist
    is not the only fatal condition. *)
Lemma help_flag_before_missing_input :
  let r := Script.main no_files
             [chars "docu.py"; chars "nofile.py"; chars "--help"] in
  let d := Script.main only_directories [chars "docu.py"; chars "src"] in
  (no_files (chars "nofile.py") = None /\
   Script.status r = 0 /\
   Script.stdout r = Script.doc (chars "nofile.py") ++ [nl]) /\
  (only_directories (chars "src") <> None /\
   Script.status d = 1 /\
   Script.stdout d = []).
Proof. repeat split. discriminate. Qed.

(** * Further properties *)

(** ** The pass as a whole *)

Lemma run_app st xs ys :
  run st (xs ++ ys) =
  (fst (run (fst (run st xs)) ys),
   snd (run st xs) ++ snd (run (fst (run st xs)) ys)).
Proof.
  revert st; induction xs as [|x xs IH]; intros st; simpl.
  - destruct (run st ys); reflexivity.
  - destruct (step st x) as [st1 o1]; simpl.
    rewrite IH.
    destruct (run st1 xs) as [st2 o2]; simpl.
    now rewrite app_assoc.
Qed.

(** X1.  The output is written front to back: what the pass prints for the
    first lines of a file is the beginning of what it prints for the whole
    file, and the rest is what the loop prints for the remaining lines from
    the state reached. *)
Theorem output_streams (xs ys : list str) :
  extract (xs ++ ys) =
  extract xs ++ snd (run (state_after xs (List.length xs)) ys) /\
  firstn (List.length (extract xs)) (extract (xs ++ ys)) = extract xs.
Proof.
  assert (E : extract (xs ++ ys) =
              extract xs ++ snd (run (state_after xs (List.length xs)) ys)).
  { unfold extract, state_after, st_at. rewrite run_app, firstn_all.
    reflexivity. }
  split; [exact E|].
  rewrite E, firstn_app, firstn_all, Nat.sub_diag. simpl. apply app_nil_r.
Qed.

Lemma nested_step st l : nested st -> nested (fst (step st l)).
Proof.
  intros (Hf & Hd). unfold step, nested.
  destruct (funcdoc st) eqn:Ed, (func st) eqn:Ef, (clss st) eqn:Ec;
  chain; guards; simpl in *;
    rewrite ?Ed, ?Ef, ?Ec in *; simpl in *;
    repeat split; intros; try discriminate; try congruence; auto.
Qed.

(** X2.  After any number of lines of any file, [func] and [funcdoc] are
    true only when [clss] is: a def heading or a method docstring is only
    ever recognised after a class heading. *)
Theorem method_inside_class (lines : list str) (k : nat) :
  (func (state_after lines k) = true -> clss (state_after lines k) = true) /\
  (funcdoc (state_after lines k) = true -> clss (state_after lines k) = true).
Proof.
  unfold state_after. induction k as [|k IH].
  - split; discriminate.
  - destruct (nth_error lines k) as [l|] eqn:E.
    + rewrite (st_at_S _ _ _ _ E). now apply nested_step.
    + now rewrite (st_at_end _ _ _ E).
Qed.

Lemma plain_step st l :
  plain st -> (i st < 5 -> matches Pat.title l = false) ->
  plain (fst (step st l)) /\ front (select (tick st) l) = false.
Proof.
  intros (Hy & Hm) Ht. unfold step, plain.
  chain; guards; simpl in *; rewrite ?Hy, ?Hm in *;
    repeat split; try reflexivity; try congruence; try discriminate;
    try lia.
  all: rewrite Ht in * by lia; discriminate.
Qed.

(** X3.  When none of the first five lines opens a module docstring, no
    line of the file takes a front-matter or module-block branch: the stage
    stays 0 and [module] stays false to the end. *)
Theorem no_marker_no_front_matter (lines : list str)
  (H : forall k l, k < 5 -> nth_error lines k = Some l ->
                   matches Pat.title l = false) (k : nat) :
  yaml (state_after lines k) = 0 /\
  module (state_after lines k) = false /\
  (forall b, nth_error (trace init lines) k = Some b -> front b = false).
Proof.
  assert (P : forall n, plain (state_after lines n)).
  { unfold state_after. induction n as [|n IH]; [split; reflexivity|].
    destruct (nth_error lines n) as [l|] eqn:E.
    - rewrite (st_at_S _ _ _ _ E). apply plain_step; [exact IH|].
      rewrite st_at_i
        by (apply Nat.lt_le_incl, nth_error_Some; now rewrite E).
      intros Hn. apply (H n); [exact Hn|exact E].
    - now rewrite (st_at_end _ _ _ E). }
  destruct (P k) as (Hy & Hm). repeat split; [exact Hy|exact Hm|].
  intros b T. apply trace_nth_inv in T as (l & E & ->).
  apply plain_step; [apply P|].
  fold (state_after lines k). unfold state_after.
  rewrite st_at_i by (apply Nat.lt_le_incl, nth_error_Some; now rewrite E).
  intros Hn. apply (H k); [exact Hn|exact E].
Qed.

(** The theorem at [one_method], a file without module docstring. *)
Lemma no_marker_no_front_matter_witness :
  yaml (state_after one_method 4) = 0 /\
  module (state_after one_method 4) = false /\
  (forall b, nth_error (trace init one_method) 2 = Some b -> front b = false).
Proof.
  split; [reflexivity|]. split; [reflexivity|].
  apply (no_marker_no_front_matter one_method).
  intros k l _ E.
  destruct k as [|[|[|[|k]]]]; simpl in E;
    try (injection E as <-; reflexivity).
  destruct k; discriminate.
Defined.

(** X4.  The date branch, which writes the closing fence, is taken by one
    line of a file at most. *)
Theorem date_at_most_once (lines : list str) (j k : nat) :
  nth_error (trace init lines) j = Some BDate ->
  nth_error (trace init lines) k = Some BDate ->
  j = k.
Proof.
  assert (D : forall n, nth_error (trace init lines) n = Some BDate ->
            (n = 2 \/ n = 3) /\ yaml (st_at init lines n) = 2 /\
            yaml (st_at init lines (S n)) = 3).
  { intros n T. pose proof T as T'.
    apply trace_nth_inv in T as (l & E & B). symmetry in B.
    pose proof B as B'.
    apply select_date in B as (Hi & Hy & _). simpl in Hi, Hy.
    rewrite st_at_i in Hi
      by (apply Nat.lt_le_incl, nth_error_Some; now rewrite E).
    destruct (stage_has_author lines n) as (a & Ha & Ta); [lia|].
    apply trace_nth_inv in Ta as (la & Ea & Ba). symmetry in Ba.
    apply select_author in Ba as (_ & Ba). simpl in Ba.
    destruct (stage_has_title lines a) as (t & Ht & _); [lia|].
    split; [simpl in Hi; lia|]. split; [exact Hy|].
    rewrite (st_at_S _ _ _ _ E), step_yaml, B'. lia. }
  intros Tj Tk.
  destruct (D j Tj) as ([-> | ->] & Yj & Yj'),
           (D k Tk) as ([-> | ->] & Yk & Yk'); try reflexivity; congruence.
Qed.

(** The theorem at scenario A, whose third line is the date. *)
Lemma date_at_most_once_witness :
  nth_error (trace init scenario_A_quoted) 2 = Some BDate /\ 2 = 2.
Proof.
  split; [reflexivity|].
  apply (date_at_most_once scenario_A_quoted 2 2); reflexivity.
Defined.

(** ** The command line, case by case *)

Lemma main_usage (fs : str -> option Script.file) (prog : str) :
  Script.main fs [prog] = (usage_line prog ++ usage_line prog, Script.Exited 0).
Proof.
  unfold Script.main, usage_line. cbn [List.length Nat.eqb].
  unfold Script.usage, Script.index. cbn [nth_error].
  unfold Script.bind, Script.ret, Script.print, Script.exit.
  cbn [app]. f_equal.
  now rewrite !app_nil_r, <- !app_assoc.
Qed.

Lemma main_help (fs : str -> option Script.file) (prog a : str)
    (rest : list str) :
  wants_help (prog :: a :: rest) = true ->
  Script.main fs (prog :: a :: rest) = (Script.doc a ++ [nl], Script.Exited 0).
Proof.
  unfold wants_help. intros H.
  unfold Script.main. cbn [List.length Nat.eqb]. rewrite H.
  unfold Script.help, Script.index. cbn [nth_error].
  unfold Script.bind, Script.ret, Script.print, Script.exit.
  cbn [app]. f_equal.
  now rewrite !app_nil_r.
Qed.

(** X5.  Called with the program name alone, the script prints the usage
    line twice (once in each of the two tests of the length of [argv]) and
    exits with status 0, without looking at the file system. *)
Theorem usage_printed_twice (fs : str -> option Script.file) (prog : str) :
  Script.stdout (Script.main fs [prog]) = usage_line prog ++ usage_line prog /\
  Script.status (Script.main fs [prog]) = 0.
Proof.
  rewrite main_usage. split; reflexivity.
Qed.

(** X6.  With two or more arguments, one of them [-h] or [--help], the
    script prints its docstring with the first argument after the program
    name (not the program name) in the usage line, and exits with status
    0; the file system is not looked at. *)
Theorem help_flag_wins (fs : str -> option Script.file) (prog a : str)
    (rest : list str) :
  wants_help (prog :: a :: rest) = true ->
  Script.stdout (Script.main fs (prog :: a :: rest)) = Script.doc a ++ [nl] /\
  Script.status (Script.main fs (prog :: a :: rest)) = 0.
Proof.
  intros H. rewrite main_help by exact H. split; reflexivity.
Qed.

(** The theorem at [docu.py -h]. *)
Lemma help_flag_wins_witness :
  Script.stdout (Script.main no_files [chars "docu.py"; chars "-h"])
    = Script.doc (chars "-h") ++ [nl] /\
  Script.status (Script.main no_files [chars "docu.py"; chars "-h"]) = 0.
Proof.
  apply (help_flag_wins no_files (chars "docu.py") (chars "-h") []).
  reflexivity.
Defined.

(** X7.  Given a program name at least, [argv] is never read out of
    range: an exception escapes in one case only, when a path is given
    without a help flag and the path exists but cannot be opened or read to
    its end.  The exit status is 0 for the bare program name, for a help
    flag, and for a file read to its end; it is 1 when the path does not
    exist and when the exception escapes. *)
Theorem exit_status (fs : str -> option Script.file) (prog : str)
    (args : list str) :
  (snd (Script.main fs (prog :: args)) = Script.Raised <->
   exists path rest, args = path :: rest /\
     wants_help (prog :: args) = false /\
     (fs path = Some Script.Closed \/
      exists lines, fs path = Some (Script.Broken lines))) /\
  Script.status (Script.main fs (prog :: args)) =
    match args with
    | [] => 0
    | path :: _ =>
        if wants_help (prog :: args) then 0
        else match fs path with Some (Script.Text _) => 0 | _ => 1 end
    end.
Proof.
  destruct args as [|path rest].
  - rewrite main_usage. split; [|reflexivity].
    split; [discriminate|]. now intros (p & r & E & _).
  - destruct (wants_help (prog :: path :: rest)) eqn:W.
    + rewrite main_help by exact W. split; [|reflexivity].
      split; [discriminate|]. now intros (p & r & _ & E & _).
    + unfold wants_help in W. apply orb_false_iff in W as (W1 & W2).
      rewrite (main_reads_path fs prog path rest W1 W2).
      split.
      * split.
        -- intros E. exists path, rest. split; [reflexivity|].
           split; [reflexivity|].
           destruct (fs path) as [[lines| |lines]|]; try discriminate E.
           ++ now left.
           ++ right. now exists lines.
        -- intros (p & r & E & _ & [F|(lines & F)]);
             injection E as <- <-; now rewrite F.
      * now destruct (fs path) as [[lines| |lines]|].
Qed.

(** ** Lines that begin with white space *)

Lemma cmem_ws l a :
  forallb atom_ws l = true -> cmem (Any l) a = true -> is_space a = true.
Proof.
  unfold cmem. induction l as [|t l IH]; cbn [forallb existsb];
    [discriminate|].
  intros F M. apply andb_true_iff in F as [Ft F].
  apply orb_true_iff in M as [M|M]; [|now apply IH].
  destruct t; cbn [atom_ws atom_mem] in *; try discriminate.
  - apply Ascii.eqb_eq in M. now subst.
  - exact M.
Qed.

Lemma span_stop c hi ws y r :
  cmem c y = false -> span c hi (ws ++ y :: r) <= List.length ws.
Proof.
  intros Hy. revert hi. induction ws as [|a ws IH]; intros hi; cbn [app span].
  - rewrite Hy. cbn. lia.
  - destruct (cmem c a); cbn [List.length]; [|lia].
    destruct hi as [[|h]|]; [lia| |].
    + specialize (IH (Some h)). lia.
    + specialize (IH None). lia.
Qed.

Lemma forallb_skipn (f : ascii -> bool) k : forall l,
  forallb f l = true -> forallb f (skipn k l) = true.
Proof.
  induction k as [|k IH]; intros l F; [exact F|].
  destruct l as [|a l]; [reflexivity|].
  cbn [skipn]. apply IH. cbn [forallb] in F.
  now apply andb_true_iff in F.
Qed.

(** A pattern that, after items taking white space only, wants the
    character [x] does not match a line whose first character after the
    leading white space is another one. *)
Lemma ws_then_miss x y r p :
  is_space x = false -> is_space y = false -> Ascii.eqb y x = false ->
  forall q, forallb item_ws q = true ->
  forall start n op g adv ws,
    forallb is_space ws = true ->
    exec (q ++ one x :: p) start n op g adv (ws ++ y :: r) = None.
Proof.
  intros Hx Hy Hxy. induction q as [|it q IH]; intros Fq start n op g adv ws Fw.
  - cbn [app]. rewrite exec_one. destruct ws as [|a ws]; cbn [app].
    + now rewrite Hxy.
    + cbn [forallb] in Fw. apply andb_true_iff in Fw as [Fa _].
      destruct (Ascii.eqb a x) eqn:E; [|reflexivity].
      apply Ascii.eqb_eq in E. congruence.
  - cbn [forallb] in Fq. apply andb_true_iff in Fq as [Fi Fq].
    change ((it :: q) ++ one x :: p) with (it :: (q ++ one x :: p)).
    destruct it as [| | |c lo hi].
    + rewrite exec_bol_eq. destruct (start && (n =? 0)); [|reflexivity].
      now apply IH.
    + rewrite exec_open. now apply IH.
    + rewrite exec_close. now apply IH.
    + destruct c as [l|l]; [|discriminate]. cbn [item_ws] in Fi.
      apply exec_rep_none. intros k Hk.
      assert (Hc : cmem (Any l) y = false).
      { destruct (cmem (Any l) y) eqn:E; [|reflexivity].
        apply (cmem_ws _ _ Fi) in E. congruence. }
      pose proof (span_stop (Any l) hi ws y r Hc) as Hs.
      rewrite skipn_app.
      replace (k - List.length ws) with 0 by lia. cbn [skipn].
      apply IH; [exact Fq|]. now apply forallb_skipn.
Qed.

Section LeadingSpace.

Variables (ws r : str) (y : ascii).
Hypothesis ws_ok : forallb is_space ws = true.
Hypothesis y_ok : is_space y = false.

Let line : str := ws ++ y :: r.

Lemma lead_not_title : Ascii.eqb y dq = false -> matches Pat.title line = false.
Proof.
  intros H. unfold line, matches, Pat.title, quotes.
  change ([Bol] ++ [one dq; one dq; one dq] ++ ?t)
    with ([Bol] ++ one dq :: (one dq :: one dq :: t)).
  now rewrite ws_then_miss.
Qed.

Lemma lead_not_class : Ascii.eqb y "c" = false -> matches Pat.class line = false.
Proof.
  intros H. unfold line, matches, Pat.class.
  change ([Bol] ++ lit "class" ++ ?t)
    with ([Bol] ++ one "c"%char :: (lit "lass" ++ t)).
  now rewrite ws_then_miss.
Qed.

Lemma lead_not_inline : Ascii.eqb y dq = false -> matches Pat.inline line = false.
Proof.
  intros H. unfold line, matches, Pat.inline, quotes.
  change ([plus blank] ++ [one dq; one dq; one dq] ++ ?t)
    with ([plus blank] ++ one dq :: (one dq :: one dq :: t)).
  now rewrite ws_then_miss.
Qed.

Lemma lead_not_def : Ascii.eqb y "d" = false -> matches Pat.def line = false.
Proof.
  intros H. unfold line, matches, Pat.def.
  change ([Bol] ++ lit "    " ++ [opt blank] ++ lit "def")
    with (([Bol] ++ lit "    " ++ [opt blank])
          ++ one "d"%char :: lit "ef").
  now rewrite ws_then_miss.
Qed.

Lemma lead_not_doc_open :
  Ascii.eqb y dq = false -> matches Pat.doc_open line = false.
Proof.
  intros H. unfold line, matches, Pat.doc_open, quotes.
  change ([rep blank 7 9] ++ [one dq; one dq; one dq])
    with ([rep blank 7 9] ++ one dq :: [one dq; one dq]).
  now rewrite ws_then_miss.
Qed.

Lemma lead_not_doc_inline :
  Ascii.eqb y dq = false -> matches Pat.doc_inline line = false.
Proof.
  intros H. destruct (matches Pat.doc_inline line) eqn:E; [|reflexivity].
  apply (matches_prefix Pat.doc_open) in E.
  now rewrite lead_not_doc_open in E.
Qed.

End LeadingSpace.

(** ** Literate comments outside docstrings *)

Lemma literate_matches ws post :
  forallb is_space ws = true ->
  matches Pat.literate (ws ++ marker ++ post) = true.
Proof.
  intros F. unfold matches, Pat.literate.
  change ([star space] ++ ?t) with (star space :: t). unfold star.
  erewrite exec_rep_all; [reflexivity| | |lia|exact I|].
  - eapply forallb_impl; [|exact F]. intros a Ha. cbn. now rewrite Ha.
  - reflexivity.
  - unfold lit. rewrite exec_lit.
    change (chars "#'") with marker. cbn [marker chars list_ascii_of_string app prefixb].
    rewrite !Ascii.eqb_refl. cbn [andb List.length skipn].
    unfold opt. rewrite exec_rep. apply greedy_top; [lia|apply exec_end].
Qed.

(** The front-matter branches are out of reach: no module docstring was
    seen, or the line is the fifth or a later one. *)
Lemma window_closed st :
  yaml st = 0 \/ 4 <= i st ->
  (S (i st) <? 5) && (yaml st =? 1) = false /\
  forall b, (S (i st) <? 5) && (yaml st =? 2) && b = false.
Proof.
  intros [H|H].
  - rewrite H. cbn. now rewrite !andb_false_r.
  - replace (S (i st) <? 5) with false
      by (symmetry; apply Nat.ltb_ge; lia). now split.
Qed.

(** X8.  Outside the module block and outside a method docstring, a line
    that begins with white space (or nothing) and then the marker is a
    literate comment, inside a class or not, after a def heading or not:
    the state is left as it is and, when the marker is the last one on the
    line, the text after it is printed. *)
Theorem literate_outside_docstrings (st : state) (ws post : str) :
  module st = false -> funcdoc st = false ->
  yaml st = 0 \/ 4 <= i st ->
  forallb is_space ws = true ->
  forallb (cmem dot) ws = true ->
  occurs marker post = false ->
  select (tick st) (ws ++ marker ++ post) = BLiterate /\
  step st (ws ++ marker ++ post) = (tick st, drop_blank post).
Proof.
  intros Hm Hd Hw Fs Fd Hp.
  assert (B : select (tick st) (ws ++ marker ++ post) = BLiterate).
  { destruct (window_closed st Hw) as (W1 & W2).
    unfold select. cbn [tick i yaml module clss func funcdoc].
    rewrite W1, W2, Hm, Hd.
    change (ws ++ marker ++ post) with (ws ++ "#"%char :: "'"%char :: post).
    rewrite lead_not_title, lead_not_class, lead_not_inline, lead_not_def,
      lead_not_doc_open, lead_not_doc_inline by (assumption || reflexivity).
    change (ws ++ "#"%char :: "'"%char :: post) with (ws ++ marker ++ post).
    rewrite literate_matches by exact Fs.
    now rewrite !andb_false_r. }
  split; [exact B|].
  unfold step. rewrite B. cbn [perform].
  now rewrite strip_last.
Qed.

(** The theorem at an indented comment read on line 3, after a class
    heading and a def heading. *)
Lemma literate_outside_docstrings_witness :
  step (state_after inline_method 2) (ln "        #' ## Methods") =
  (tick (state_after inline_method 2), ln "## Methods").
Proof.
  apply (literate_outside_docstrings (state_after inline_method 2)
           (chars "        ") (chars " ## Methods" ++ [nl]));
    solve [reflexivity | left; reflexivity].
Defined.

(** ** The module block *)

Lemma module_end_matches line :
  matches Pat.module_end line = prefixb q3 line.
Proof.
  unfold matches, Pat.module_end.
  change ([Bol] ++ quotes) with (Bol :: map one q3 ++ []).
  rewrite exec_bol, exec_lit.
  destruct (prefixb q3 line); reflexivity.
Qed.

Lemma title_needs_quotes line :
  prefixb q3 line = false -> matches Pat.title line = false.
Proof.
  intros H. unfold matches, Pat.title.
  change ([Bol] ++ quotes ++ ?t) with (Bol :: map one q3 ++ t).
  now rewrite exec_bol, exec_lit, H.
Qed.

(** X9.  From line 6 on, while the module block is open, a line that
    begins with three double quotes closes the block and prints nothing
    (what follows the quotes on that line is lost); any other line is
    printed as it stands, whatever it looks like, and the block stays
    open. *)
Theorem module_block_lines (st : state) (line : str) :
  module st = true -> 5 <= i st ->
  step st line =
    if prefixb q3 line then (set_module false (tick st), [])
    else (tick st, line).
Proof.
  intros Hm Hi. unfold step, select. cbn [tick i yaml module].
  replace (S (i st) <? 6) with false by (symmetry; apply Nat.ltb_ge; lia).
  replace (S (i st) <? 5) with false by (symmetry; apply Nat.ltb_ge; lia).
  cbn [andb]. rewrite Hm, module_end_matches. cbn [andb].
  destruct (prefixb q3 line); reflexivity.
Qed.

(** The theorem at a class heading read inside the module block. *)
Lemma module_block_lines_witness :
  step (State 5 true 2 false false false) (ln "class Foo:") =
  (State 6 true 2 false false false, ln "class Foo:").
Proof.
  apply (module_block_lines (State 5 true 2 false false false)
           (ln "class Foo:")); [reflexivity|cbn; lia].
Defined.

Lemma title_mark_none start n op g s :
  occurs q3 s = false ->
  forall k, exec Pat.title_mark start n op g false (skipn k s) = None.
Proof.
  intros H k. unfold Pat.title_mark.
  change (quotes ++ ?t) with (map one q3 ++ t).
  now rewrite exec_lit, occurs_skipn.
Qed.

Lemma span_cap c h : forall s, span c (Some h) s <= h.
Proof.
  induction h as [|h IH]; intros s; [now rewrite span_zero|].
  destruct s as [|a s]; cbn [span]; [lia|].
  destruct (cmem c a); [|lia]. specialize (IH s). lia.
Qed.

Lemma nonspace_blank c : is_space c = false -> cmem blank c = false.
Proof.
  intros H. cbn [cmem blank existsb atom_mem]. rewrite orb_false_r.
  destruct (Ascii.eqb c " ") eqn:E; [|reflexivity].
  apply Ascii.eqb_eq in E. subst c. discriminate.
Qed.

Section TitleLine.

Variables (c : ascii) (t : str).

Let line : str := q3 ++ c :: t ++ [nl].

Hypothesis c_ok : is_space c = false.
Hypothesis t_some : t <> [].
Hypothesis t_ok : forallb (cmem dot) t = true.
Hypothesis no_quotes : occurs q3 (c :: t) = false.

Lemma title_matches : matches Pat.title line = true.
Proof.
  unfold matches, Pat.title, line.
  change ([Bol] ++ quotes ++ ?x) with (Bol :: map one q3 ++ x).
  rewrite exec_bol, exec_lit.
  change (prefixb q3 (q3 ++ ?x)) with true. cbv iota.
  change (skipn (List.length q3) (q3 ++ ?x)) with x.
  rewrite exec_open, exec_rep. cbn [span cmem existsb atom_mem].
  rewrite c_ok, span_zero. cbn [orb negb].
  erewrite greedy_top; [reflexivity|lia|]. cbn [skipn].
  apply exec_rep_all; [exact t_ok|reflexivity| |exact I|].
  - destruct t; [now elim t_some|simpl; lia].
  - rewrite exec_close. apply exec_end.
Qed.

Lemma title_mark_sub : sub Pat.title_mark [] line = c :: t ++ [nl].
Proof.
  unfold sub, line.
  rewrite sub_go_hit_app with (g := []).
  - cbn [expand flat_map app]. apply sub_go_id. intros k b'.
    apply title_mark_none.
    change (c :: t ++ [nl]) with ((c :: t) ++ [nl]).
    rewrite occurs_snoc; [exact no_quotes|discriminate|reflexivity].
  - discriminate.
  - unfold Pat.title_mark. change (quotes ++ ?x) with (map one q3 ++ x).
    rewrite exec_lit.
    change (prefixb q3 (q3 ++ ?x)) with true. cbv iota.
    change (skipn (List.length q3) (q3 ++ ?x)) with x.
    unfold star. rewrite exec_rep. cbn [span].
    rewrite nonspace_blank by exact c_ok.
    apply greedy_top; [lia|]. cbn [skipn]. rewrite exec_end.
    reflexivity.
Qed.

End TitleLine.

Lemma title_step (st : state) (c : ascii) (t : str) :
  i st < 5 -> is_space c = false -> t <> [] ->
  forallb (cmem dot) t = true -> occurs q3 (c :: t) = false ->
  step st (q3 ++ c :: t ++ [nl]) =
  (set_module true (set_yaml 1 (tick st)), title_text (c :: t ++ [nl])).
Proof.
  intros Hi Hc Ht Fd Hq. unfold step, select. cbn [tick i].
  rewrite title_matches by assumption.
  replace (S (i st) <? 6) with true by (symmetry; apply Nat.ltb_lt; lia).
  cbn [andb perform]. unfold title_text.
  now rewrite title_mark_sub.
Qed.

(** X10.  Among the first five lines, a line made of three double quotes
    and, right after them, a title of two characters or more that does not
    begin with white space opens the front matter: the opening fence and
    the [title:] line with the title (after two blanks) are printed, the
    stage becomes 1 and the module block is open.  This holds whatever the
    state: a second title line starts a second front matter. *)
Theorem title_line (st : state) (c : ascii) (t : str) :
  i st < 5 -> is_space c = false -> t <> [] ->
  forallb (cmem dot) t = true -> occurs q3 (c :: t) = false ->
  step st (q3 ++ c :: t ++ [nl]) =
  (set_module true (set_yaml 1 (tick st)), title_text (c :: t ++ [nl])).
Proof.
  intros Hi Hc Ht Fd Hq. unfold step, select. cbn [tick i].
  rewrite title_matches by assumption.
  replace (S (i st) <? 6) with true by (symmetry; apply Nat.ltb_lt; lia).
  cbn [andb perform]. unfold title_text.
  now rewrite title_mark_sub.
Qed.

(** The theorem at the title line of scenario A. *)
Lemma title_line_witness :
  step init (q3 ++ ln "Title") =
  (State 1 true 1 false false false,
   chars "---" ++ [nl] ++ chars "title:  Title" ++ [nl]).
Proof.
  apply (title_line init "T"%char (chars "itle"));
    solve [reflexivity | discriminate | cbn; lia].
Defined.

Lemma blank_first_miss lo hi p start n op g adv a s :
  1 <= lo -> cmem blank a = false ->
  exec (Rep blank lo hi :: p) start n op g adv (a :: s) = None.
Proof.
  intros L H. apply exec_rep_none. intros k Hk.
  cbn [span] in Hk. rewrite H in Hk. lia.
Qed.

(** X11.  A title of one character is not a title: the pattern wants a
    second character after the first.  Outside the module block, outside
    a method docstring and outside the front-matter window (no title line
    read so far, or the line is the fifth or a later one), the line of
    three double quotes and one character prints nothing and changes
    nothing but the line count. *)
Theorem short_title_ignored (st : state) (c : ascii) :
  module st = false -> funcdoc st = false ->
  yaml st = 0 \/ 4 <= i st ->
  step st (q3 ++ [c; nl]) = (tick st, []).
Proof.
  intros Hm Hd Hw.
  assert (T : matches Pat.title (q3 ++ [c; nl]) = false).
  { unfold matches, Pat.title.
    change ([Bol] ++ quotes ++ ?x) with (Bol :: map one q3 ++ x).
    rewrite exec_bol, exec_lit.
    change (prefixb q3 (q3 ++ ?x)) with true. cbv iota.
    change (skipn (List.length q3) (q3 ++ ?x)) with x.
    rewrite exec_open. erewrite exec_rep_none; [reflexivity|].
    intros k Hk.
    assert (k <= 1)
      by (pose proof (span_cap (Non [Space]) 1 [c; nl]); lia).
    assert (k = 1) as -> by lia. cbn [skipn].
    apply exec_rep_none. intros j Hj. cbn in Hj. lia. }
  assert (C : matches Pat.class (q3 ++ [c; nl]) = false).
  { unfold matches, Pat.class, lit.
    cbn [app map chars list_ascii_of_string q3].
    now rewrite exec_bol, exec_one. }
  assert (I1 : matches Pat.inline (q3 ++ [c; nl]) = false).
  { unfold matches, Pat.inline, plus. cbn [app q3].
    now rewrite blank_first_miss. }
  assert (D : matches Pat.def (q3 ++ [c; nl]) = false).
  { unfold matches, Pat.def, lit.
    cbn [app map chars list_ascii_of_string q3].
    now rewrite exec_bol, exec_one. }
  assert (O : matches Pat.doc_open (q3 ++ [c; nl]) = false).
  { unfold matches, Pat.doc_open, rep. cbn [app q3].
    rewrite blank_first_miss; [reflexivity|lia|reflexivity]. }
  assert (O' : matches Pat.doc_inline (q3 ++ [c; nl]) = false).
  { destruct (matches Pat.doc_inline (q3 ++ [c; nl])) eqn:E; [|reflexivity].
    apply (matches_prefix Pat.doc_open) in E. congruence. }
  assert (L : matches Pat.literate (q3 ++ [c; nl]) = false).
  { unfold matches, Pat.literate.
    change ([star space] ++ lit "#'" ++ ?x)
      with ([star space] ++ one "#"%char :: (lit "'" ++ x)).
    change (q3 ++ [c; nl]) with ([] ++ dq :: [dq; dq; c; nl]).
    now rewrite ws_then_miss. }
  destruct (window_closed st Hw) as (W1 & W2).
  unfold step, select. cbn [tick i yaml module clss func funcdoc].
  rewrite T, C, I1, D, O, O', L, W1, W2, Hm, Hd.
  now rewrite !andb_false_r.
Qed.

(** The theorem at the line of three quotes and [T], first line of a
    file. *)
Lemma short_title_ignored_witness :
  step init (q3 ++ ln "T") = (tick init, []).
Proof.
  apply (short_title_ignored init "T"%char);
    solve [reflexivity | left; reflexivity].
Defined.

(** ** Def headings *)

Section DefHeading.

Variables (n sp : nat) (c : ascii) (s' rest : str).

Let line : str :=
  repeat " "%char n ++ chars "def" ++ repeat " "%char (S sp)
  ++ (c :: s') ++ rest ++ [nl].

Hypothesis n_ok : n = 4 \/ n = 5.
Hypothesis c_ok : cmem sig_chars c = true.
Hypothesis c_blank : cmem blank c = false.
Hypothesis s_ok : forallb (cmem sig_chars) s' = true.
Hypothesis rest_stops : stops sig_chars rest = true.
Hypothesis rest_line : forallb (cmem dot) rest = true.

Lemma def_matches : matches Pat.def line = true.
Proof. unfold line. destruct n_ok as [-> | ->]; reflexivity. Qed.

Lemma def_name_sub : sub Pat.def_name [G1] line = c :: s'.
Proof.
  assert (E : exists k, exec Pat.def_name true 0 [] [] false line
                        = Some (k, c :: s') /\ k = List.length line).
  { eexists. split.
    - unfold line, Pat.def_name. cbn [app]. rewrite exec_bol.
      apply exec_rep_all with (l1 := repeat " "%char n).
      + now apply forallb_repeat.
      + reflexivity.
      + rewrite repeat_length. lia.
      + exact I.
      + unfold lit. rewrite exec_lit.
        cbn [prefixb chars list_ascii_of_string app].
        rewrite !Ascii.eqb_refl. cbn [andb List.length skipn].
        apply exec_rep_all with (l1 := repeat " "%char (S sp)).
        * now apply forallb_repeat.
        * unfold stops. cbn [app]. now rewrite c_blank.
        * rewrite repeat_length. lia.
        * exact I.
        * rewrite exec_open. apply exec_rep_all with (l1 := c :: s').
          -- change (cmem sig_chars c && forallb (cmem sig_chars) s' = true).
             now rewrite c_ok, s_ok.
          -- destruct rest; [reflexivity|exact rest_stops].
          -- simpl; lia.
          -- exact I.
          -- rewrite exec_close.
             change (c :: s' ++ ?x) with ((c :: s') ++ x).
             rewrite firstn_group.
             apply exec_rep_all; [exact rest_line|reflexivity|lia|exact I|].
             rewrite exec_one. cbn. apply exec_end.
    - unfold line. cbn [chars list_ascii_of_string].
      rewrite ?length_app, ?repeat_length. cbn [List.length].
      rewrite ?length_app. cbn [List.length]. lia. }
  destruct E as (k & E & Hk).
  rewrite <- (expand_G1 (c :: s')).
  unfold line in *. destruct n as [|n']; [lia|]. cbn [repeat app] in *.
  eapply sub_whole; [exact E| |reflexivity].
  rewrite Hk. reflexivity.
Qed.

End DefHeading.

(** X12.  Inside a class, outside the module block and outside the
    front-matter window (no title line read so far, or the line is the
    fifth or a later one), a line made of four or five blanks, [def],
    blanks, a heading text that does not begin with a blank, and a newline
    is a def heading: it prints a blank line and [**def text**], where the
    text runs up to the first colon (the parameter list is part of it),
    and sets [func]. *)
Theorem def_heading (st : state) (n sp : nat) (c : ascii) (s' rest : str) :
  let line := repeat " "%char n ++ chars "def" ++ repeat " "%char (S sp)
              ++ (c :: s') ++ rest ++ [nl] in
  clss st = true -> module st = false -> yaml st = 0 \/ 4 <= i st ->
  n = 4 \/ n = 5 ->
  cmem sig_chars c = true -> cmem blank c = false ->
  forallb (cmem sig_chars) s' = true ->
  stops sig_chars rest = true -> forallb (cmem dot) rest = true ->
  step st line =
  (set_func true (tick st),
   [nl] ++ chars "**def " ++ (c :: s') ++ chars "**" ++ [nl]).
Proof.
  intros line Hc Hm Hw Hn H1 H2 H3 H4 H5.
  destruct (window_closed st Hw) as (W1 & W2).
  assert (B : select (tick st) line = BDef).
  { unfold select. cbn [tick i yaml module clss func funcdoc].
    rewrite W1, W2, Hm, Hc.
    unfold line.
    change (repeat " "%char n ++ chars "def" ++ ?x)
      with (repeat " "%char n ++ "d"%char :: (chars "ef" ++ x)).
    rewrite lead_not_title, lead_not_class, lead_not_inline
      by (reflexivity || now apply forallb_repeat).
    change (repeat " "%char n ++ "d"%char :: (chars "ef" ++ ?x))
      with (repeat " "%char n ++ chars "def" ++ x).
    rewrite def_matches by assumption.
    now rewrite !andb_false_r. }
  unfold step. rewrite B. cbn [perform]. unfold line.
  now rewrite def_name_sub.
Qed.

(** The theorem at the def heading of scenario A. *)
Lemma def_heading_witness :
  step (State 6 false 3 true false false) (ln "    def bar(self):") =
  (State 7 false 3 true true false,
   [nl] ++ chars "**def bar(self)**" ++ [nl]).
Proof.
  apply (def_heading (State 6 false 3 true false false) 4 0 "b"%char
           (chars "ar(self)") (chars ":"));
    solve [reflexivity | left; reflexivity | right; cbn; lia].
Defined.

(** X13.  Before the first class heading, outside the module block and
    outside the front-matter window (no title line read so far, or the
    line is the fifth or a later one), a line whose first character after
    the leading white space is none of the double quote, [c] and [#] is
    dropped: nothing is printed and only the line count changes.  Imports,
    assignments and the def headings of module-level functions are such
    lines.  Inside the window such a line can be taken for the author or
    the date. *)
Theorem line_before_class_dropped (st : state) (ws r : str) (y : ascii) :
  clss st = false -> func st = false -> funcdoc st = false ->
  module st = false -> yaml st = 0 \/ 4 <= i st ->
  forallb is_space ws = true -> is_space y = false ->
  Ascii.eqb y dq = false -> Ascii.eqb y "c" = false ->
  Ascii.eqb y "#" = false ->
  step st (ws ++ y :: r) = (tick st, []).
Proof.
  intros Hc Hf Hd Hm Hw Fw Hy Y1 Y2 Y3.
  destruct (window_closed st Hw) as (W1 & W2).
  assert (L : matches Pat.literate (ws ++ y :: r) = false).
  { unfold matches, Pat.literate.
    change ([star space] ++ lit "#'" ++ ?x)
      with ([star space] ++ one "#"%char :: (lit "'" ++ x)).
    now rewrite ws_then_miss. }
  unfold step, select. cbn [tick i yaml module clss func funcdoc].
  rewrite W1, W2, Hm, Hc, Hf, Hd, L.
  rewrite lead_not_title, lead_not_class by assumption.
  now rewrite !andb_false_r.
Qed.

(** The theorem at a module-level def heading, first line of a file. *)
Lemma line_before_class_dropped_witness :
  step init (ln "def main(argv):") = (tick init, []).
Proof.
  apply (line_before_class_dropped init [] (chars "ef main(argv):" ++ [nl])
           "d"%char); solve [reflexivity | left; reflexivity].
Defined.

(** ** Method docstrings *)

Lemma blank_head_not_title s : matches Pat.title (" "%char :: s) = false.
Proof. now apply title_needs_quotes. Qed.

Lemma blank_head_not_class s : matches Pat.class (" "%char :: s) = false.
Proof.
  unfold matches, Pat.class, lit. cbn [app map chars list_ascii_of_string].
  now rewrite exec_bol, exec_one.
Qed.

Lemma deep_indent_not_def n c r :
  6 <= n -> cmem blank c = false ->
  matches Pat.def (repeat " "%char n ++ c :: r) = false.
Proof.
  intros Hn Hc. unfold matches, Pat.def, lit.
  destruct n as [|[|[|[|n4]]]]; try lia.
  cbn [repeat app map chars list_ascii_of_string].
  rewrite exec_bol, !exec_one. cbn [Ascii.eqb Bool.eqb]. cbv iota.
  unfold opt.
  rewrite (indent_miss n4 c _ Hc true false 0 (Some 1) "d"%char);
    [reflexivity|reflexivity|].
  right. exists 1. split; [reflexivity|lia].
Qed.

(** A text on which the repetition of the blank can take [j] characters
    begins with [j] blanks. *)
Lemma blank_run : forall j h s,
  j <= span blank (Some h) s -> prefixb (repeat " "%char j) s = true.
Proof.
  induction j as [|j IH]; intros h s Hj; [reflexivity|].
  destruct s as [|a s]; [cbn in Hj; lia|].
  cbn [span] in Hj. destruct (cmem blank a) eqn:E; [|lia].
  cbn [cmem blank existsb atom_mem] in E. rewrite orb_false_r in E.
  apply Ascii.eqb_eq in E. subst a.
  cbn [repeat prefixb]. rewrite Ascii.eqb_refl. cbn [andb].
  destruct h as [|h]; [lia|]. apply (IH h). lia.
Qed.

Section DocLine.

Variables (n : nat) (c : ascii) (t : str).

Let line : str := repeat " "%char n ++ c :: t.

Hypothesis n_ok : n = 7 \/ n = 8.
Hypothesis text_ok : doc_text (c :: t) = true.

Lemma doc_text_inv :
  is_space c = false /\ Ascii.eqb c dq = false /\
  prefixb (chars "Arguments:") (c :: t) = false /\ occurs run7 t = false.
Proof.
  unfold doc_text in text_ok.
  apply andb_true_iff in text_ok as [H H4].
  apply andb_true_iff in H as [H H3].
  apply andb_true_iff in H as [H1 H2].
  now rewrite negb_true_iff in *.
Qed.

Lemma doc_not_head : matches Pat.args_head line = false.
Proof.
  destruct doc_text_inv as (Hc & _ & Ha & _).
  unfold matches, Pat.args_head, line. cbn [app]. unfold plus.
  erewrite exec_rep_none; [reflexivity|]. intros k Hk.
  rewrite (indent_span n c t (nonspace_blank c Hc)) in Hk.
  rewrite skipn_repeat by lia.
  change (lit "Arguments:") with (map one (chars "Arguments:") ++ []).
  rewrite exec_lit.
  destruct (n - k); cbn [repeat app]; [now rewrite Ha|reflexivity].
Qed.

Lemma doc_not_arg : matches Pat.arg line = false.
Proof.
  destruct doc_text_inv as (Hc & _).
  unfold matches, Pat.arg, line, rep.
  erewrite exec_rep_none; [reflexivity|]. intros k Hk.
  rewrite (indent_span n c t (nonspace_blank c Hc)) in Hk. lia.
Qed.

Lemma doc_not_loose : matches Pat.arg_loose line = false.
Proof.
  destruct doc_text_inv as (Hc & _).
  unfold matches, Pat.arg_loose, line, rep. cbn [app].
  erewrite exec_rep_none; [reflexivity|]. intros k Hk.
  rewrite span_run_max, repeat_length in Hk; [lia| |].
  - now apply forallb_repeat.
  - unfold stops. cbn [cmem space existsb atom_mem]. now rewrite Hc.
Qed.

Lemma doc_not_end : matches Pat.doc_end line = false.
Proof.
  destruct doc_text_inv as (Hc & Hq & _).
  unfold matches, Pat.doc_end, line, quotes.
  change ([plus blank] ++ [one dq; one dq; one dq] ++ ?x)
    with ([plus blank] ++ one dq :: (one dq :: one dq :: x)).
  rewrite ws_then_miss;
    [reflexivity|reflexivity|exact Hc|exact Hq|reflexivity|].
  now apply forallb_repeat.
Qed.

Lemma indent_none start m op g s :
  prefixb run7 s = false -> exec Pat.indent start m op g false s = None.
Proof.
  intros H. unfold Pat.indent, rep. apply exec_rep_none. intros k Hk.
  unfold run7 in H. rewrite (blank_run 7 9 s) in H by lia. discriminate.
Qed.

Lemma indent_sub : sub Pat.indent [] line = c :: t.
Proof.
  destruct doc_text_inv as (Hc & _ & _ & Hr).
  unfold sub, line.
  rewrite sub_go_hit_app with (g := []).
  - cbn [expand flat_map app]. apply sub_go_id. intros k b'.
    apply indent_none. apply occurs_skipn.
    cbn [occurs]. rewrite Hr, orb_false_r.
    unfold run7. cbn [repeat prefixb].
    replace (Ascii.eqb " " c) with false; [reflexivity|].
    symmetry. rewrite Ascii.eqb_sym.
    pose proof (nonspace_blank c Hc) as B.
    cbn [cmem blank existsb atom_mem] in B. now rewrite orb_false_r in B.
  - destruct n_ok as [-> | ->]; discriminate.
  - unfold Pat.indent, rep.
    erewrite exec_rep_all; [|now apply forallb_repeat| | | |apply exec_end].
    + now rewrite repeat_length.
    + unfold stops. now rewrite (nonspace_blank c Hc).
    + rewrite repeat_length. lia.
    + rewrite repeat_length. lia.
Qed.

End DocLine.

Lemma text_line_select (st : state) (n : nat) (c : ascii) (t : str) :
  funcdoc st = true -> module st = false -> yaml st = 0 \/ 4 <= i st ->
  n = 7 \/ n = 8 -> doc_text (c :: t) = true ->
  select (tick st) (repeat " "%char n ++ c :: t) = BDocLine.
Proof.
  intros Hd Hm Hw Hn Ht.
  destruct (window_closed st Hw) as (W1 & W2).
  destruct (doc_text_inv c t Ht) as (Hc & Hq & _).
  assert (Hb : forallb is_space (repeat " "%char n) = true)
    by now apply forallb_repeat.
  unfold select. cbn [tick i yaml module clss func funcdoc].
  rewrite W1, W2, Hm, Hd.
  rewrite lead_not_inline, lead_not_doc_open, lead_not_doc_inline,
    doc_not_head, doc_not_arg, doc_not_loose, doc_not_end by assumption.
  rewrite deep_indent_not_def
    by (lia || now apply nonspace_blank).
  destruct Hn as [-> | ->]; cbn [repeat app];
    rewrite blank_head_not_title, blank_head_not_class;
    now rewrite !andb_false_r.
Qed.

Lemma text_line_step (st : state) (n : nat) (c : ascii) (t : str) :
  funcdoc st = true -> module st = false -> yaml st = 0 \/ 4 <= i st ->
  n = 7 \/ n = 8 -> doc_text (c :: t) = true ->
  step st (repeat " "%char n ++ c :: t) = (tick st, c :: t).
Proof.
  intros Hd Hm Hw Hn Ht. unfold step.
  rewrite text_line_select by assumption. cbn [perform].
  now rewrite indent_sub.
Qed.

(** X14.  While a method docstring is open, the module block is not, and
    the front-matter window is closed (no title line read so far, or the
    line is the fifth or a later one), a line of text indented by seven or
    eight blanks is printed without the indentation, and the state is left
    as it is. *)
Theorem docstring_text_line (st : state) (n : nat) (c : ascii) (t : str) :
  funcdoc st = true -> module st = false -> yaml st = 0 \/ 4 <= i st ->
  n = 7 \/ n = 8 -> doc_text (c :: t) = true ->
  step st (repeat " "%char n ++ c :: t) = (tick st, c :: t).
Proof.
  intros Hd Hm Hw Hn Ht. unfold step.
  rewrite text_line_select by assumption. cbn [perform].
  now rewrite indent_sub.
Qed.

(** The theorem at a line of a docstring of [pargs.py]. *)
Lemma docstring_text_line_witness :
  step (state_after one_method 3) (ln "        Colored error message.") =
  (tick (state_after one_method 3), ln "Colored error message.").
Proof.
  apply (docstring_text_line (state_after one_method 3) 8 "C"%char
           (chars "olored error message." ++ [nl]));
    solve [reflexivity | left; reflexivity | right; reflexivity].
Defined.

Lemma first_miss c lo hi p start n op g adv a s :
  1 <= lo -> cmem c a = false ->
  exec (Rep c lo hi :: p) start n op g adv (a :: s) = None.
Proof.
  intros L H. apply exec_rep_none. intros k Hk.
  cbn [span] in Hk. rewrite H in Hk. lia.
Qed.

Section QuotesLine.

(** A line of [n] blanks, three double quotes and a rest without three
    double quotes in a row. *)
Variables (n : nat) (r : str).
Hypothesis n_ok : 1 <= n.
Hypothesis r_ok : occurs q3 r = false.

Let line : str := repeat " "%char n ++ q3 ++ r.

Lemma quotes_line_shape : line = repeat " "%char n ++ dq :: (dq :: dq :: r).
Proof. reflexivity. Qed.

Lemma quotes_not_title : matches Pat.title line = false.
Proof.
  unfold line. destruct n; [lia|]. apply blank_head_not_title.
Qed.

Lemma quotes_not_class : matches Pat.class line = false.
Proof.
  unfold line. destruct n; [lia|]. apply blank_head_not_class.
Qed.

Lemma quotes_not_inline : matches Pat.inline line = false.
Proof.
  unfold matches, Pat.inline, plus.
  change ([Rep blank 1 None] ++ quotes ++ ?x)
    with (Rep blank 1 None :: map one q3 ++ x).
  erewrite exec_rep_none; [reflexivity|]. intros k Hk.
  rewrite quotes_line_shape, (indent_span n dq _ eq_refl) in Hk.
  unfold line. rewrite skipn_repeat by lia. rewrite exec_lit.
  destruct (n - k); cbn [repeat app]; [|reflexivity].
  change (prefixb q3 (q3 ++ r)) with true. cbv iota.
  change (skipn (List.length q3) (q3 ++ r)) with r.
  change ([plus dot] ++ quotes) with (Rep dot 1 None :: map one q3 ++ []).
  apply exec_rep_none. intros j _.
  change quotes with (map one q3 ++ []).
  now rewrite exec_lit, occurs_skipn.
Qed.

Lemma quotes_not_def : matches Pat.def line = false.
Proof.
  rewrite quotes_line_shape. apply lead_not_def; try reflexivity.
  now apply forallb_repeat.
Qed.

Lemma quotes_doc_open : 7 <= n <= 9 -> matches Pat.doc_open line = true.
Proof.
  intros Hn. unfold matches, Pat.doc_open, line, rep.
  change ([Rep blank 7 (Some 9)] ++ quotes)
    with (Rep blank 7 (Some 9) :: map one q3 ++ []).
  erewrite exec_rep_all; [reflexivity| |reflexivity| | |].
  - now apply forallb_repeat.
  - rewrite repeat_length. lia.
  - rewrite repeat_length. lia.
  - rewrite exec_lit. change (prefixb q3 (q3 ++ r)) with true. cbv iota.
    apply exec_end.
Qed.

Lemma quotes_not_head : matches Pat.args_head line = false.
Proof.
  rewrite quotes_line_shape. unfold matches, Pat.args_head.
  change ([plus blank] ++ lit "Arguments:")
    with ([plus blank] ++ one "A"%char :: lit "rguments:").
  rewrite ws_then_miss; try reflexivity. now apply forallb_repeat.
Qed.

Lemma quotes_not_arg : matches Pat.arg line = false.
Proof.
  unfold matches, Pat.arg, rep.
  erewrite exec_rep_none; [reflexivity|]. intros k Hk.
  rewrite quotes_line_shape, (indent_span n dq _ eq_refl) in Hk.
  unfold line. rewrite skipn_repeat by lia. unfold plus.
  destruct (n - k); cbn [repeat app q3]; now apply first_miss.
Qed.

Lemma quotes_not_loose : matches Pat.arg_loose line = false.
Proof.
  unfold matches, Pat.arg_loose, rep. cbn [app].
  erewrite exec_rep_none; [reflexivity|]. intros k Hk.
  rewrite quotes_line_shape in Hk.
  rewrite span_run_max, repeat_length in Hk;
    [|now apply forallb_repeat|reflexivity].
  unfold line. rewrite skipn_repeat by lia. unfold plus.
  destruct (n - k); cbn [repeat app q3]; now apply first_miss.
Qed.

Lemma quotes_doc_end : matches Pat.doc_end line = true.
Proof.
  unfold matches, Pat.doc_end, line, plus.
  change ([Rep blank 1 None] ++ quotes ++ ?x)
    with (Rep blank 1 None :: map one q3 ++ x).
  erewrite exec_rep_all; [reflexivity| |reflexivity| |exact I|].
  - now apply forallb_repeat.
  - rewrite repeat_length. lia.
  - rewrite exec_lit. change (prefixb q3 (q3 ++ r)) with true. cbv iota.
    unfold star. rewrite exec_rep. apply greedy_top; [lia|apply exec_end].
Qed.

End QuotesLine.

Lemma quotes_open_step (st : state) (n : nat) (r : str) :
  func st = true -> module st = false -> yaml st = 0 \/ 4 <= i st ->
  7 <= n <= 9 -> occurs q3 r = false ->
  step st (repeat " "%char n ++ q3 ++ r) =
  (set_func false (set_funcdoc true (tick st)), [nl]).
Proof.
  intros Hf Hm Hw Hn Hr.
  destruct (window_closed st Hw) as (W1 & W2).
  unfold step, select. cbn [tick i yaml module clss func funcdoc].
  rewrite W1, W2, Hm, Hf.
  rewrite quotes_not_title, quotes_not_class, quotes_not_inline,
    quotes_not_def, quotes_doc_open by (assumption || lia).
  now rewrite !andb_false_r.
Qed.

(** X15.  After a def heading, with the module block not open and the
    front-matter window closed (no title line read so far, or the line is
    the fifth or a later one), a line of seven to nine blanks and three
    double quotes, with no further three quotes on the line, opens the
    method docstring: a blank line is printed, [funcdoc] is set and [func]
    is cleared.  Text after the quotes on the opening line is not
    printed. *)
Theorem docstring_opens (st : state) (n : nat) (r : str) :
  func st = true -> module st = false -> yaml st = 0 \/ 4 <= i st ->
  7 <= n <= 9 -> occurs q3 r = false ->
  step st (repeat " "%char n ++ q3 ++ r) =
  (set_func false (set_funcdoc true (tick st)), [nl]).
Proof.
  intros Hf Hm Hw Hn Hr.
  destruct (window_closed st Hw) as (W1 & W2).
  unfold step, select. cbn [tick i yaml module clss func funcdoc].
  rewrite W1, W2, Hm, Hf.
  rewrite quotes_not_title, quotes_not_class, quotes_not_inline,
    quotes_not_def, quotes_doc_open by (assumption || lia).
  now rewrite !andb_false_r.
Qed.

(** The theorem at the opening line of a docstring, after a class heading
    and a def heading. *)
Lemma docstring_opens_witness :
  step (state_after inline_method 2) quotes_line =
  (State 3 false 0 true false true, [nl]).
Proof.
  apply (docstring_opens (state_after inline_method 2) 8 [nl]);
    solve [reflexivity | left; reflexivity | cbn; lia].
Defined.

Lemma quotes_close_step (st : state) (n : nat) (r : str) :
  funcdoc st = true -> func st = false -> module st = false ->
  yaml st = 0 \/ 4 <= i st ->
  1 <= n -> occurs q3 r = false ->
  step st (repeat " "%char n ++ q3 ++ r) =
  (set_func false (set_funcdoc false (tick st)), []).
Proof.
  intros Hd Hf Hm Hw Hn Hr.
  destruct (window_closed st Hw) as (W1 & W2).
  unfold step, select. cbn [tick i yaml module clss func funcdoc].
  rewrite W1, W2, Hm, Hf, Hd.
  rewrite quotes_not_title, quotes_not_class, quotes_not_inline,
    quotes_not_def, quotes_not_head, quotes_not_arg, quotes_not_loose,
    quotes_doc_end by assumption.
  now rewrite !andb_false_r.
Qed.

(** X16.  While a method docstring is open and no def heading is pending,
    with the module block not open and the front-matter window closed, a
    line of blanks and three double quotes, with no further three quotes
    on the line, closes it: nothing is printed and [funcdoc] is cleared. *)
Theorem docstring_closes (st : state) (n : nat) (r : str) :
  funcdoc st = true -> func st = false -> module st = false ->
  yaml st = 0 \/ 4 <= i st ->
  1 <= n -> occurs q3 r = false ->
  step st (repeat " "%char n ++ q3 ++ r) =
  (set_func false (set_funcdoc false (tick st)), []).
Proof.
  intros Hd Hf Hm Hw Hn Hr.
  destruct (window_closed st Hw) as (W1 & W2).
  unfold step, select. cbn [tick i yaml module clss func funcdoc].
  rewrite W1, W2, Hm, Hf, Hd.
  rewrite quotes_not_title, quotes_not_class, quotes_not_inline,
    quotes_not_def, quotes_not_head, quotes_not_arg, quotes_not_loose,
    quotes_doc_end by assumption.
  now rewrite !andb_false_r.
Qed.

(** The theorem at the closing line of the docstring of [one_method]. *)
Lemma docstring_closes_witness :
  step (state_after one_method 4) quotes_line =
  (State 5 false 0 true false false, []).
Proof.
  apply (docstring_closes (state_after one_method 4) 8 [nl]);
    solve [reflexivity | left; reflexivity | cbn; lia].
Defined.

Lemma advance_window k st :
  yaml st = 0 \/ 4 <= i st -> yaml (advance k st) = 0 \/ 4 <= i (advance k st).
Proof. intros [H|H]; [left; exact H|right; cbn; lia]. Qed.

Lemma text_lines_run : forall body st rest,
  funcdoc st = true -> module st = false -> yaml st = 0 \/ 4 <= i st ->
  forallb doc_text body = true ->
  run st (map text_line body ++ rest) =
  (fst (run (advance (List.length body) st) rest),
   List.concat body ++ snd (run (advance (List.length body) st) rest)).
Proof.
  induction body as [|t body IH]; intros st rest Hd Hm Hw F.
  - cbn [map app List.length List.concat].
    replace (advance 0 st) with st by now destruct st.
    now destruct (run st rest).
  - cbn [forallb] in F. apply andb_true_iff in F as [Ft F].
    destruct t as [|c t]; [discriminate|].
    cbn [map app List.length run List.concat]. unfold text_line at 1.
    rewrite text_line_step by (assumption || (right; reflexivity)).
    rewrite (IH (tick st) rest Hd Hm (advance_window 1 st Hw) F).
    replace (advance (List.length body) (tick st))
      with (advance (S (List.length body)) st)
      by (unfold advance, tick; cbn; f_equal; lia).
    destruct (run (advance (S (List.length body)) st) rest).
    cbn [fst snd]. now rewrite <- app_assoc.
Qed.

(** X17.  A whole method docstring: after a def heading, with the module
    block not open and the front-matter window closed, the opening line,
    any number of lines of text and the closing line, all indented by
    eight blanks, print a blank line and then the lines of text without
    their indentation; at the end [func] and [funcdoc] are false and the
    other flags are as before. *)
Theorem docstring_block (st : state) (body : list str) :
  func st = true -> module st = false -> yaml st = 0 \/ 4 <= i st ->
  forallb doc_text body = true ->
  run st (quotes_line :: map text_line body ++ [quotes_line]) =
  (set_func false (set_funcdoc false (advance (List.length body + 2) st)),
   [nl] ++ List.concat body).
Proof.
  intros Hf Hm Hw F. cbn [run]. unfold quotes_line at 1.
  rewrite quotes_open_step by (assumption || reflexivity || (cbn; lia)).
  set (s1 := set_func false (set_funcdoc true (tick st))).
  assert (W1 : yaml s1 = 0 \/ 4 <= i s1)
    by (destruct Hw as [H|H]; [left; exact H|right; cbn; lia]).
  rewrite (text_lines_run body s1 [quotes_line] eq_refl Hm W1 F).
  cbn [run]. unfold quotes_line.
  rewrite quotes_close_step;
    try solve [assumption | reflexivity | cbn; lia
              | apply advance_window; exact W1].
  cbn [fst snd]. rewrite !app_nil_r. f_equal.
  unfold set_func, set_funcdoc, advance, tick, s1. cbn.
  f_equal. lia.
Qed.

(** The theorem at the docstring of [error] in [pargs.py], without its
    argument list. *)
Lemma docstring_block_witness :
  run (state_after inline_method 2)
    [quotes_line; text_line (ln "Colored error message."); quotes_line]
  = (State 5 false 0 true false false, [nl] ++ ln "Colored error message.").
Proof.
  apply (docstring_block (state_after inline_method 2)
           [ln "Colored error message."]);
    solve [reflexivity | left; reflexivity].
Defined.

(** ** Argument lists *)

Lemma header_select (st : state) (n : nat) (r : str) :
  funcdoc st = true -> module st = false -> yaml st = 0 \/ 4 <= i st ->
  1 <= n ->
  select (tick st) (repeat " "%char n ++ chars "Arguments:" ++ r) = BArgsHead.
Proof.
  intros Hd Hm Hw Hn.
  destruct (window_closed st Hw) as (W1 & W2).
  assert (Hb : forallb is_space (repeat " "%char n) = true)
    by now apply forallb_repeat.
  assert (A : matches Pat.args_head
                (repeat " "%char n ++ chars "Arguments:" ++ r) = true).
  { unfold matches, Pat.args_head, plus.
    change ([Rep blank 1 None] ++ lit "Arguments:")
      with (Rep blank 1 None :: map one (chars "Arguments:") ++ []).
    erewrite exec_rep_all; [reflexivity| |reflexivity| |exact I|].
    - now apply forallb_repeat.
    - rewrite repeat_length. lia.
    - rewrite exec_lit.
      change (prefixb (chars "Arguments:") (chars "Arguments:" ++ r))
        with true. cbv iota. apply exec_end. }
  unfold select. cbn [tick i yaml module clss func funcdoc].
  rewrite W1, W2, Hm, Hd, A.
  change (repeat " "%char n ++ chars "Arguments:" ++ r)
    with (repeat " "%char n ++ "A"%char :: (chars "rguments:" ++ r)).
  rewrite lead_not_title, lead_not_class, lead_not_inline, lead_not_def,
    lead_not_doc_open, lead_not_doc_inline by (assumption || reflexivity).
  now rewrite !andb_false_r.
Qed.

Lemma header_step (st : state) (n : nat) (r : str) :
  funcdoc st = true -> module st = false -> yaml st = 0 \/ 4 <= i st ->
  1 <= n ->
  step st (repeat " "%char n ++ chars "Arguments:" ++ r) =
  (tick st, header_text).
Proof.
  intros Hd Hm Hw Hn. unfold step.
  now rewrite header_select by assumption.
Qed.

(** X18.  While a method docstring is open, with the module block not
    open and the front-matter window closed, a line of blanks and
    [Arguments:] prints the header of the argument list, a blank line and
    a [>] without newline, whatever follows on the line; the state is left
    as it is. *)
Theorem arguments_header (st : state) (n : nat) (r : str) :
  funcdoc st = true -> module st = false -> yaml st = 0 \/ 4 <= i st ->
  1 <= n ->
  step st (repeat " "%char n ++ chars "Arguments:" ++ r) =
  (tick st, header_text).
Proof.
  intros Hd Hm Hw Hn. unfold step.
  rewrite header_select by assumption. reflexivity.
Qed.

(** The theorem at the header line of [one_method]'s docstring. *)
Lemma arguments_header_witness :
  step (state_after one_method 3) header_line =
  (tick (state_after one_method 3),
   chars "> _Arguments:_" ++ [nl; nl] ++ chars ">").
Proof.
  apply (arguments_header (state_after one_method 3) 8 [nl]);
    solve [reflexivity | left; reflexivity | lia].
Defined.

Lemma entry_step (st : state) (e : entry) :
  funcdoc st = true -> module st = false -> yaml st = 0 \/ 4 <= i st ->
  entry_ok e = true ->
  step st (entry_line e) = (tick st, entry_item e).
Proof.
  destruct e as [[c w] desc]. intros Hd Hm Hw He.
  unfold entry_ok in He.
  apply andb_true_iff in He as [He H5].
  apply andb_true_iff in He as [He H4].
  apply andb_true_iff in He as [He H3].
  apply andb_true_iff in He as [H1 H2].
  apply negb_true_iff in H5.
  assert (H3' : desc <> []) by (destruct desc; [discriminate|discriminate]).
  assert (Hn : 9 <= 12 <= 12) by lia.
  destruct (window_closed st Hw) as (W1 & W2).
  unfold entry_line, entry_item.
  change (repeat " "%char 12 ++ (c :: w) ++ chars " - " ++ desc ++ [nl])
    with (repeat " "%char 12 ++ (c :: w) ++ repeat " "%char 0
          ++ chars " - " ++ desc ++ [nl]).
  assert (B : select (tick st)
                (repeat " "%char 12 ++ (c :: w) ++ repeat " "%char 0
                 ++ chars " - " ++ desc ++ [nl]) = BArg).
  { unfold select. cbn [tick i yaml module clss func funcdoc].
    rewrite W1, W2, Hm, Hd.
    rewrite arg_not_title, arg_not_class, arg_not_inline, arg_not_def,
      arg_not_doc_open, arg_not_doc_inline, arg_not_head, arg_matches
      by assumption.
    now rewrite !andb_false_r. }
  unfold step. rewrite B. cbn [perform].
  now rewrite arg_name_sub, arg_text_sub.
Qed.

Lemma entries_run : forall es st,
  funcdoc st = true -> module st = false -> yaml st = 0 \/ 4 <= i st ->
  forallb entry_ok es = true ->
  run st (map entry_line es) =
  (advance (List.length es) st, List.concat (map entry_item es)).
Proof.
  induction es as [|e es IH]; intros st Hd Hm Hw F.
  - cbn. now destruct st.
  - cbn [forallb] in F. apply andb_true_iff in F as [Fe F].
    cbn [map run List.length List.concat].
    rewrite entry_step by assumption.
    rewrite (IH (tick st) Hd Hm (advance_window 1 st Hw) F).
    f_equal. unfold advance, tick; cbn; f_equal; lia.
Qed.

(** X19.  An argument list, read while a method docstring is open, with
    the module block not open and the front-matter window closed: the
    header line followed by entries written at twelve blanks prints the
    header and then one item [ - _name_: text] per entry, in order.  The first item follows the [>] of the header on
    the same line; the others begin their own lines.  No flag changes. *)
Theorem argument_list (st : state) (es : list entry) :
  funcdoc st = true -> module st = false -> yaml st = 0 \/ 4 <= i st ->
  forallb entry_ok es = true ->
  run st (header_line :: map entry_line es) =
  (advance (S (List.length es)) st,
   header_text ++ List.concat (map entry_item es)).
Proof.
  intros Hd Hm Hw F. cbn [run]. unfold header_line.
  rewrite header_step by (assumption || lia).
  rewrite (entries_run es (tick st) Hd Hm (advance_window 1 st Hw) F).
  f_equal. unfold advance, tick; cbn; f_equal; lia.
Qed.

(** The theorem at the argument list of [error] in [pargs.py]. *)
Lemma argument_list_witness :
  run (state_after one_method 3)
    [header_line; ln "            msg - the message to display"] =
  (State 5 false 0 true false true,
   chars "> _Arguments:_" ++ [nl; nl]
   ++ chars "> - _msg_: the message to display" ++ [nl]).
Proof.
  apply (argument_list (state_after one_method 3)
           [("m"%char, chars "sg", chars "the message to display")]);
    solve [reflexivity | left; reflexivity].
Defined.

(** ** One-line docstrings *)

Lemma quoteless_skipn k : forall s,
  quoteless s = true -> prefixb q3 (skipn k s) = false.
Proof.
  induction k as [|k IH]; intros s H.
  - destruct s as [|a s]; [reflexivity|]. cbn [skipn]. unfold q3.
    cbn [prefixb]. cbn [quoteless forallb] in H. apply andb_true_iff in H as [Ha _].
    apply negb_true_iff in Ha. now rewrite Ascii.eqb_sym, Ha.
  - destruct s as [|a s]; [reflexivity|]. cbn [skipn]. apply IH.
    cbn [quoteless forallb] in H. now apply andb_true_iff in H.
Qed.

Lemma quoteless_head s :
  quoteless s = true ->
  match s with a :: _ => Ascii.eqb dq a = false | [] => True end.
Proof.
  destruct s as [|a s]; [trivial|]. cbn [quoteless forallb].
  intros H. apply andb_true_iff in H as [Ha _].
  apply negb_true_iff in Ha. now rewrite Ascii.eqb_sym.
Qed.

Section Inline.

Variables (n : nat) (text rest : str).

Let tail : str := text ++ q3 ++ rest ++ [nl].
Let line : str := repeat " "%char n ++ q3 ++ tail.

Hypothesis n_ok : 1 <= n.
Hypothesis text_some : text <> [].
Hypothesis text_ok : forallb (cmem dot) text = true.
Hypothesis rest_ok : quoteless rest = true.

Lemma rest_nl_quoteless : quoteless (rest ++ [nl]) = true.
Proof. unfold quoteless in *. rewrite forallb_app, rest_ok. reflexivity. Qed.

(** The closing quotes are the last ones on the line. *)
Lemma no_later_quotes k :
  List.length text < k -> prefixb q3 (skipn k tail) = false.
Proof.
  intros Hk. unfold tail.
  replace k with (S (k - List.length text - 1) + List.length text) by lia.
  rewrite <- skipn_skipn, skipn_app, skipn_all, Nat.sub_diag.
  cbn [app skipn q3].
  pose proof rest_nl_quoteless as Q.
  pose proof (quoteless_head _ Q) as H.
  destruct (k - List.length text - 1) as [|[|j]].
  - cbn [skipn]. unfold q3. cbn [prefixb]. rewrite !Ascii.eqb_refl.
    cbn [andb]. destruct (rest ++ [nl]); [reflexivity|]. now rewrite H.
  - cbn [skipn]. unfold q3. cbn [prefixb]. rewrite !Ascii.eqb_refl.
    cbn [andb]. destruct (rest ++ [nl]); [reflexivity|]. now rewrite H.
  - cbn [skipn]. now apply quoteless_skipn.
Qed.

Lemma text_span : List.length text <= span dot None tail.
Proof. apply span_ge, text_ok. Qed.

Lemma inline_matches : matches Pat.inline line = true.
Proof.
  unfold matches, Pat.inline, line, plus.
  change ([Rep blank 1 None] ++ quotes ++ [Rep dot 1 None] ++ quotes)
    with (Rep blank 1 None
          :: map one q3 ++ Rep dot 1 None :: map one q3 ++ []).
  erewrite exec_rep_all; [reflexivity| |reflexivity| |exact I|].
  - now apply forallb_repeat.
  - rewrite repeat_length. lia.
  - rewrite exec_lit. change (prefixb q3 (q3 ++ tail)) with true. cbv iota.
    change (skipn (List.length q3) (q3 ++ tail)) with tail.
    apply exec_rep_back with (k0 := List.length text).
    + split; [|apply text_span]. destruct text; [now elim text_some|simpl; lia].
    + intros k Hk. rewrite exec_lit, no_later_quotes by lia. reflexivity.
    + unfold tail at 1. rewrite skipn_app, skipn_all, Nat.sub_diag.
      cbn [app skipn]. rewrite exec_lit.
      change (prefixb q3 (q3 ++ ?x)) with true. cbv iota. apply exec_end.
Qed.

Lemma inline_text_sub :
  sub Pat.inline_text [G1] line = text ++ rest ++ [nl].
Proof.
  unfold sub, line.
  replace (repeat " "%char n ++ q3 ++ tail)
    with ((repeat " "%char n ++ q3 ++ text ++ q3) ++ rest ++ [nl])
    by (unfold tail; now rewrite <- !app_assoc).
  rewrite sub_go_hit_app with (g := text).
  - rewrite expand_G1. f_equal. apply sub_go_id. intros k b'.
    unfold Pat.inline_text, plus.
    change ([Rep blank 1 None] ++ quotes ++ ?x)
      with (Rep blank 1 None :: map one q3 ++ x).
    apply exec_rep_none. intros j _.
    rewrite exec_lit, skipn_skipn, quoteless_skipn; [reflexivity|].
    apply rest_nl_quoteless.
  - destruct n; [lia|discriminate].
  - replace ((repeat " "%char n ++ q3 ++ text ++ q3) ++ rest ++ [nl])
      with (repeat " "%char n ++ q3 ++ tail)
      by (unfold tail; now rewrite <- !app_assoc).
    unfold Pat.inline_text, plus.
    change ([Rep blank 1 None] ++ quotes ++ [Open; Rep dot 1 None; Close]
            ++ quotes)
      with (Rep blank 1 None
            :: map one q3 ++ Open :: Rep dot 1 None :: Close
               :: map one q3 ++ []).
    apply exec_rep_all with (l1 := repeat " "%char n).
    + now apply forallb_repeat.
    + reflexivity.
    + rewrite repeat_length. lia.
    + exact I.
    + rewrite exec_lit. change (prefixb q3 (q3 ++ tail)) with true. cbv iota.
      change (skipn (List.length q3) (q3 ++ tail)) with tail.
      rewrite exec_open.
      apply exec_rep_back with (k0 := List.length text).
      * split; [|apply text_span].
        destruct text; [now elim text_some|simpl; lia].
      * intros k Hk. rewrite exec_close, exec_lit, no_later_quotes by lia.
        reflexivity.
      * unfold tail. rewrite skipn_app, skipn_all, Nat.sub_diag.
        cbn [app skipn]. rewrite exec_close, firstn_group.
        rewrite exec_lit.
        change (prefixb q3 (q3 ++ ?x)) with true. cbv iota.
        rewrite exec_end. do 2 f_equal.
        rewrite !length_app, repeat_length. cbn [List.length q3]. lia.
Qed.

End Inline.

Lemma inline_step (st : state) (n : nat) (text rest : str) :
  clss st = true -> module st = false -> yaml st = 0 \/ 4 <= i st ->
  1 <= n -> text <> [] -> forallb (cmem dot) text = true ->
  quoteless rest = true ->
  step st (repeat " "%char n ++ q3 ++ text ++ q3 ++ rest ++ [nl]) =
  (tick st, text ++ rest ++ [nl; nl]).
Proof.
  intros Hc Hm Hw Hn Ht Fd Hr.
  destruct (window_closed st Hw) as (W1 & W2).
  unfold step, select. cbn [tick i yaml module clss func funcdoc].
  rewrite W1, W2, Hm, Hc, inline_matches by assumption.
  destruct n as [|n']; [lia|]. cbn [repeat app].
  rewrite blank_head_not_title, blank_head_not_class.
  rewrite !andb_false_r. cbn [andb perform].
  change (" "%char :: repeat " "%char n' ++ ?x)
    with (repeat " "%char (S n') ++ x).
  rewrite inline_text_sub by assumption.
  now rewrite <- !app_assoc.
Qed.

(** X20.  Inside a class, outside the module block and outside the
    front-matter window, a line of blanks, three double quotes, a text,
    three double quotes, a rest without double quote and a newline is a
    one-line docstring: the text is printed, followed by
    the rest of the line and by a blank line, and no flag changes.  This is
    so for the docstring of the class and for the docstring of a method
    alike: after a def heading [func] stays true. *)
Theorem one_line_docstring (st : state) (n : nat) (text rest : str) :
  clss st = true -> module st = false -> yaml st = 0 \/ 4 <= i st ->
  1 <= n -> text <> [] -> forallb (cmem dot) text = true ->
  quoteless rest = true ->
  step st (repeat " "%char n ++ q3 ++ text ++ q3 ++ rest ++ [nl]) =
  (tick st, text ++ rest ++ [nl; nl]).
Proof.
  intros Hc Hm Hw Hn Ht Fd Hr.
  destruct (window_closed st Hw) as (W1 & W2).
  unfold step, select. cbn [tick i yaml module clss func funcdoc].
  rewrite W1, W2, Hm, Hc, inline_matches by assumption.
  destruct n as [|n']; [lia|]. cbn [repeat app].
  rewrite blank_head_not_title, blank_head_not_class.
  rewrite !andb_false_r. cbn [andb perform].
  change (" "%char :: repeat " "%char n' ++ ?x)
    with (repeat " "%char (S n') ++ x).
  rewrite inline_text_sub by assumption.
  now rewrite <- !app_assoc.
Qed.

(** The theorem at the docstring of the class [Pargs], which has four
    blanks after the closing quotes. *)
Lemma one_line_docstring_witness :
  step (State 1 false 0 true false false)
    (chars "    " ++ q3 ++ chars "Pargs - Poor students argument parser."
     ++ q3 ++ chars "    " ++ [nl]) =
  (State 2 false 0 true false false,
   chars "Pargs - Poor students argument parser." ++ chars "    " ++ [nl; nl]).
Proof.
  apply (one_line_docstring (State 1 false 0 true false false) 4
           (chars "Pargs - Poor students argument parser.") (chars "    "));
    solve [reflexivity | discriminate | left; reflexivity | lia].
Defined.

(** ** The front matter as a whole *)

Lemma date_matches pre x rest :
  forallb (cmem dot) pre = true -> cmem dot x = true ->
  matches Pat.date (pre ++ chars "20" ++ x :: rest) = true.
Proof.
  intros Hp Hx. unfold matches, Pat.date.
  change ([star dot] ++ lit "20" ++ [plus dot])
    with (Rep dot 0 None :: map one (chars "20") ++ [plus dot]).
  rewrite exec_rep.
  match goal with |- match ?g with _ => _ end = _ => destruct g eqn:G end;
    [reflexivity|].
  apply greedy_none_inv with (k := List.length pre) in G.
  - rewrite skipn_app, skipn_all, Nat.sub_diag in G. cbn [app skipn] in G.
    rewrite exec_lit in G.
    change (prefixb (chars "20") (chars "20" ++ ?s)) with true in G.
    cbv iota in G.
    change (skipn (List.length (chars "20")) (chars "20" ++ ?s)) with s in G.
    unfold plus in G. rewrite exec_rep in G.
    apply greedy_none_inv with (k := span dot None (x :: rest)) in G.
    + rewrite exec_end in G. discriminate.
    + cbn [span]. rewrite Hx. lia.
  - split; [lia|]. now apply span_ge.
Qed.

Lemma author_step (st : state) (line : str) :
  yaml st = 1 -> i st < 4 -> matches Pat.title line = false ->
  step st line = (set_yaml 2 (tick st), chars "author: " ++ line).
Proof.
  intros Hy Hi Ht. unfold step, select. cbn [tick i yaml]. rewrite Ht, Hy.
  replace (S (i st) <? 5) with true by (symmetry; apply Nat.ltb_lt; lia).
  rewrite andb_false_r. cbn [Nat.eqb andb perform tick yaml]. rewrite Hy.
  reflexivity.
Qed.

Lemma date_step (st : state) (line : str) :
  yaml st = 2 -> i st < 4 -> matches Pat.title line = false ->
  matches Pat.date line = true ->
  step st line =
  (set_yaml 3 (tick st), chars "date: " ++ line ++ chars "---" ++ [nl]).
Proof.
  intros Hy Hi Ht Hd. unfold step, select. cbn [tick i yaml].
  rewrite Ht, Hd, Hy.
  replace (S (i st) <? 5) with true by (symmetry; apply Nat.ltb_lt; lia).
  rewrite andb_false_r. cbn [Nat.eqb andb perform tick yaml]. rewrite Hy.
  reflexivity.
Qed.

(** X21.  When the first or the second line of a file is a title line,
    the next line does not begin with three double quotes, and the line
    after it holds [20] followed by a character (and does not begin with
    three double quotes), the front matter is complete: the opening fence,
    [title:], [author:] with the second of these lines as it stands,
    [date:] with the third as it stands, and the closing fence.  The lines
    that follow are read with the stage at 3 and the module block open. *)
Theorem front_matter_block (st : state) (c : ascii)
    (t author pre rest : str) (x : ascii) (more : list str) :
  let date := pre ++ chars "20" ++ x :: rest in
  let s3 := set_module true (set_yaml 3 (advance 3 st)) in
  i st <= 1 ->
  is_space c = false -> t <> [] -> forallb (cmem dot) t = true ->
  occurs q3 (c :: t) = false ->
  prefixb q3 author = false ->
  forallb (cmem dot) pre = true -> cmem dot x = true ->
  prefixb q3 date = false ->
  run st ((q3 ++ c :: t ++ [nl]) :: author :: date :: more) =
  (fst (run s3 more),
   title_text (c :: t ++ [nl]) ++ chars "author: " ++ author
   ++ chars "date: " ++ date ++ chars "---" ++ [nl] ++ snd (run s3 more)).
Proof.
  intros date s3 Hi Hc Ht Ft Hq Ha Hp Hx Hd.
  cbn [run].
  rewrite title_step by (assumption || lia).
  rewrite author_step
    by (reflexivity || (cbn; lia) || now apply title_needs_quotes).
  rewrite date_step;
    [|reflexivity|cbn; lia|now apply title_needs_quotes
     |now apply date_matches].
  change (set_yaml 3 (tick (set_yaml 2 (tick (set_module true
            (set_yaml 1 (tick st))))))) with s3.
  destruct (run s3 more) as [s o]. cbn [fst snd].
  f_equal. now rewrite <- !app_assoc.
Qed.

(** The theorem at lines 2 to 4 of [pargs.py], read after its first
    line. *)
Lemma front_matter_block_witness :
  run (State 1 false 0 false false false)
    [ q3 ++ ln "pargs.py - Command line parsing for DBP lectures.";
      ln "Detlef Groth, University of Potsdam, Germany";
      ln "2025-12-13" ] =
  (State 4 true 3 false false false,
   chars "---" ++ [nl]
   ++ chars "title:  pargs.py - Command line parsing for DBP lectures." ++ [nl]
   ++ chars "author: Detlef Groth, University of Potsdam, Germany" ++ [nl]
   ++ chars "date: 2025-12-13" ++ [nl] ++ chars "---" ++ [nl]).
Proof.
  apply (front_matter_block (State 1 false 0 false false false) "p"%char
           (chars "args.py - Command line parsing for DBP lectures.")
           (ln "Detlef Groth, University of Potsdam, Germany")
           [] (chars "5-12-13" ++ [nl]) "2"%char []);
    solve [reflexivity | discriminate | cbn; lia].
Defined.

(** ** Positional arguments *)

Lemma fold_append (f : nat -> str) : forall l acc,
  fold_left (fun res i => res ++ [f i]) l acc = acc ++ map f l.
Proof.
  induction l as [|a l IH]; intros acc; cbn [fold_left map].
  - now rewrite app_nil_r.
  - rewrite IH, <- app_assoc. reflexivity.
Qed.

Lemma firstn_pad (d : str) : forall n m (l : list str),
  n <= m -> firstn n (l ++ repeat d m) = firstn n (l ++ repeat d n).
Proof.
  induction n as [|n IH]; intros m l L; [reflexivity|].
  destruct l as [|a l].
  - destruct m as [|m]; [lia|]. cbn [app repeat firstn]. f_equal.
    apply (IH m []). lia.
  - cbn [app firstn]. f_equal. rewrite (IH m) by lia.
    symmetry. apply IH. lia.
Qed.

Lemma skipn_cons (d : str) : forall s (l : list str) a t,
  skipn s l = a :: t -> nth s l d = a /\ skipn (S s) l = t.
Proof.
  induction s as [|s IH]; intros l a t H.
  - cbn in H. subst l. now split.
  - destruct l as [|b l]; [discriminate|]. cbn [skipn] in H.
    apply (IH l a t H).
Qed.

Lemma position_from (argv : list str) (d : str) n : forall s,
  map (fun i => if i <? List.length argv then nth i argv d else d) (seq s n)
  = firstn n (skipn s argv ++ repeat d n).
Proof.
  induction n as [|n IH]; intros s; [reflexivity|].
  cbn [seq map]. rewrite IH.
  destruct (s <? List.length argv) eqn:E.
  - apply Nat.ltb_lt in E.
    destruct (skipn s argv) as [|a l] eqn:K.
    + apply (f_equal (@List.length _)) in K.
      rewrite length_skipn in K. cbn in K. lia.
    + destruct (skipn_cons d s argv a l K) as (-> & ->).
      cbn [app firstn]. f_equal. symmetry. apply firstn_pad. lia.
  - apply Nat.ltb_ge in E.
    rewrite !skipn_all2 by lia. reflexivity.
Qed.

(** X22.  [position] never fails and always returns [max] values: the
    arguments after the program name, in order, cut after the first [max]
    of them, and filled up with the default when there are fewer. *)
Theorem position_pads (argv : list str) (max : nat) (default : str) :
  Pargs.position argv max default
    = firstn max (tl argv ++ repeat default max) /\
  List.length (Pargs.position argv max default) = max.
Proof.
  assert (E : Pargs.position argv max default
              = firstn max (tl argv ++ repeat default max)).
  { unfold Pargs.position. rewrite fold_append. cbn [app].
    rewrite position_from. now destruct argv. }
  split; [exact E|].
  rewrite E, length_firstn, length_app, repeat_length. lia.
Qed.
